(** * haproxy-ingress: the controller's object cache (pkg/controller/cache.go)

    A shallow embedding of [k8scache]: the dirty-state aggregator
    ([Notify], [GetDirty*], [SyncNewObjects]), the secret and credential
    resolver ([buildSecretName], [GetKey], [GetTLSSecretContent]), the ACME
    token store ([GetToken], [SetToken]) and the terminating-pod selector
    ([GetTerminatingPods], [isTerminatingPod]).

    Go pointers to API objects are values here; a [nil] pointer, map or
    interface is [None].  Strings are byte strings, as in Go.  Time is a
    count of milliseconds in [Z]. *)

From Stdlib Require Import ZArith Ascii String List.
From stdpp Require Import base option gmap strings list fin_maps.

Local Open Scope Z_scope.

(** ** Go's [strings] package, as far as cache.go uses it *)

Module strings.

Fixpoint ContainsByte (s : string) (b : ascii) : bool :=
  match s with
  | EmptyString => false
  | String a s' => if Ascii.eqb a b then true else ContainsByte s' b
  end.

(** [strings.Split(s, sep)] for a separator of one byte: the pieces of
    [s] between the occurrences of [sep]; never empty. *)
Fixpoint Split (s : string) (sep : ascii) : list string :=
  match s with
  | EmptyString => [EmptyString]
  | String a s' =>
      if Ascii.eqb a sep then EmptyString :: Split s' sep
      else match Split s' sep with
           | [] => [String a EmptyString]
           | piece :: rest => String a piece :: rest
           end
  end.

Definition Join (elems : list string) (sep : string) : string :=
  String.concat sep elems.

Fixpoint HasPrefix (s prefix : string) {struct prefix} : bool :=
  match prefix, s with
  | EmptyString, _ => true
  | String _ _, EmptyString => false
  | String p prefix', String a s' =>
      if Ascii.eqb p a then HasPrefix s' prefix' else false
  end.

Fixpoint drop (n : nat) (s : string) : string :=
  match n, s with
  | O, _ => s
  | S _, EmptyString => EmptyString
  | S n', String _ s' => drop n' s'
  end.

(** [if HasPrefix(s, prefix) { return s[len(prefix):] }; return s] *)
Definition TrimPrefix (s prefix : string) : string :=
  if HasPrefix s prefix then drop (String.length prefix) s else s.

End strings.

Definition slash : ascii := "/"%char.

(** ** Errors *)

(** One constructor per [fmt.Errorf] site of cache.go and per error of the
    libraries it calls. *)
Inductive error : Type :=
  | ErrKeyFormat (key : string)
      (* cache.SplitMetaNamespaceKey: "unexpected key format" *)
  | ErrCrossNamespace (secretName defaultNamespace : string)
      (* buildSecretName: "cross-namespace reading is disabled" *)
  | ErrNotFound (namespace name : string)
      (* a lister's Get, or the API server on Update *)
  | ErrAlreadyExists (namespace name : string)
      (* the API server on Create *)
  | ErrSecretHasNoKey (secretName : string)
      (* GetKey: "secret '%s' does not have a key" *)
  | ErrInvalidPem (secretName : string)
      (* GetKey: "has not a valid pem encoded private key" *)
  | ErrParsePrivateKey
      (* GetKey: "error parsing acme client private key" *)
  | ErrGenerateKey
      (* rsa.GenerateKey *)
  | ErrLabelSelector (selector : string).
      (* labels.Parse *)

Inductive result (A : Type) : Type :=
  | Ok (a : A)
  | Err (e : error).
Arguments Ok {A} a.
Arguments Err {A} e.

Definition bind {A B : Type} (r : result A) (k : A -> result B) : result B :=
  match r with
  | Ok a => k a
  | Err e => Err e
  end.

Notation "x <- r ;; k" := (bind r (fun x => k))
  (at level 100, r at next level, right associativity).

(** ** API objects (the fields cache.go reads) *)

Definition bytes : Type := list Byte.byte.

Record Ingress : Type := {
  ing_Namespace : string;
  ing_Name : string
}.

Record Endpoints : Type := {
  ep_Namespace : string;
  ep_Name : string
}.

Record Service : Type := {
  svc_Namespace : string;
  svc_Name : string;
  svc_Selector : gmap string string   (* Spec.Selector; nil ranges as empty *)
}.

Record Secret : Type := {
  sec_Namespace : string;
  sec_Name : string;
  sec_Type : string;
  sec_Data : gmap string bytes
}.

Record ConfigMap : Type := {
  cm_Namespace : string;
  cm_Name : string;
  cm_Data : option (gmap string string)   (* None: a nil map *)
}.

Record Pod : Type := {
  pod_Namespace : string;
  pod_Name : string;
  pod_Labels : gmap string string;
  pod_DeletionTimestamp : option Z;       (* *metav1.Time *)
  pod_Reason : string;                    (* Status.Reason *)
  pod_PodIP : string                      (* Status.PodIP *)
}.

(** The dynamic type of a non-nil [interface{}] handed to [Notify]. *)
Inductive object : Type :=
  | ObjIngress (ing : Ingress)
  | ObjEndpoints (ep : Endpoints)
  | ObjService (svc : Service)
  | ObjSecret (secret : Secret)
  | ObjConfigMap (cm : ConfigMap)
  | ObjPod (pod : Pod)
  | ObjOther (typeName : string).

Definition TLSCertKey : string := "tls.crt".
Definition TLSPrivateKeyKey : string := "tls.key".
Definition SecretTypeTLS : string := "kubernetes.io/tls".
Definition SecretTypeOpaque : string := "".

(** ** client-go: keys, listers and the API client *)

(** [cache.SplitMetaNamespaceKey] of client-go: "name" or
    "namespace/name"; anything with more slashes is an error. *)
Definition SplitMetaNamespaceKey (key : string) : result (string * string) :=
  match strings.Split key slash with
  | [name] => Ok (EmptyString, name)
  | [namespace; name] => Ok (namespace, name)
  | _ => Err (ErrKeyFormat key)
  end.

(** The objects an informer's indexer, or the API server, holds for one
    kind, found by namespace and name. *)
Section Store.
Context {A : Type} (key : A -> string * string).

Definition store_get (namespace name : string) (objs : list A) : option A :=
  find (fun o => bool_decide (key o = (namespace, name))) objs.

Definition store_replace (o : A) (objs : list A) : list A :=
  map (fun x => if bool_decide (key x = key o) then o else x) objs.

(** A lister's [Get]. *)
Definition lister_Get (objs : list A) (namespace name : string) : result A :=
  match store_get namespace name objs with
  | Some o => Ok o
  | None => Err (ErrNotFound namespace name)
  end.

(** The API server's [Create] and [Update]. *)
Definition api_Create (o : A) (objs : list A) : list A * option error :=
  match store_get (key o).1 (key o).2 objs with
  | Some _ => (objs, Some (ErrAlreadyExists (key o).1 (key o).2))
  | None => (objs ++ [o], None)
  end.

Definition api_Update (o : A) (objs : list A) : list A * option error :=
  match store_get (key o).1 (key o).2 objs with
  | Some _ => (store_replace o objs, None)
  | None => (objs, Some (ErrNotFound (key o).1 (key o).2))
  end.
End Store.

Definition secretKey (s : Secret) : string * string :=
  (sec_Namespace s, sec_Name s).
Definition configMapKey (cm : ConfigMap) : string * string :=
  (cm_Namespace cm, cm_Name cm).

(** [listers]: what the listers of the Resource Watch Layer answer from. *)
Record Listers : Type := {
  secretLister : list Secret;
  configMapLister : list ConfigMap;
  podLister : list Pod
}.

(** [client.CoreV1()]: the secrets and config maps of the API server. *)
Record Client : Type := {
  cli_Secrets : list Secret;
  cli_ConfigMaps : list ConfigMap
}.

(** [controller.GenericController]: the keys [DeleteSecret] was called
    with, oldest first. *)
Record GenericController : Type := {
  ctl_DeleteSecret : list string
}.

Definition DeleteSecret (key : string) (g : GenericController) : GenericController :=
  {| ctl_DeleteSecret := ctl_DeleteSecret g ++ [key] |}.

(** ** The cache *)

Record k8scache : Type := {
  client : Client;   (* k8s.Interface: the API server *)
  listers : Listers;   (* the informers' local mirror *)
  controller : GenericController;   (* *controller.GenericController *)
  crossNS : bool;
  globalConfigMapKey : string;
  tcpConfigMapKey : string;
  acmeSecretKeyName : string;
  acmeTokenConfigmapName : string;
  timers : list Z;   (* Go runtime: the deadlines (ms) of the time.AfterFunc
       timers armed so far; each calls updateQueue.Notify() once, when it
       fires *)
  clear : bool;
  needResync : bool;
  globalConfigMapData : option (gmap string string);
  tcpConfigMapData : option (gmap string string);
  newGlobalConfigMapData : option (gmap string string);
  newTCPConfigMapData : option (gmap string string);
  delIngresses : list Ingress;
  updIngresses : list Ingress;
  addIngresses : list Ingress;
  newEndpoints : list Endpoints;
  delServices : list Service;
  updServices : list Service;
  addServices : list Service;
  delSecrets : list Secret;
  updSecrets : list Secret;
  addSecrets : list Secret;
  newPods : list Pod
}.

(** Assignments to the fields the methods write. *)
Definition set_client (v : Client) (c : k8scache) : k8scache :=
  Build_k8scache v (listers c) (controller c) (crossNS c)
    (globalConfigMapKey c) (tcpConfigMapKey c) (acmeSecretKeyName c)
    (acmeTokenConfigmapName c) (timers c) (clear c) (needResync c)
    (globalConfigMapData c) (tcpConfigMapData c) (newGlobalConfigMapData c)
    (newTCPConfigMapData c) (delIngresses c) (updIngresses c) (addIngresses
    c) (newEndpoints c) (delServices c) (updServices c) (addServices c)
    (delSecrets c) (updSecrets c) (addSecrets c) (newPods c).
Definition set_listers (v : Listers) (c : k8scache) : k8scache :=
  Build_k8scache (client c) v (controller c) (crossNS c) (globalConfigMapKey
    c) (tcpConfigMapKey c) (acmeSecretKeyName c) (acmeTokenConfigmapName c)
    (timers c) (clear c) (needResync c) (globalConfigMapData c)
    (tcpConfigMapData c) (newGlobalConfigMapData c) (newTCPConfigMapData c)
    (delIngresses c) (updIngresses c) (addIngresses c) (newEndpoints c)
    (delServices c) (updServices c) (addServices c) (delSecrets c)
    (updSecrets c) (addSecrets c) (newPods c).
Definition set_controller (v : GenericController) (c : k8scache) : k8scache :=
  Build_k8scache (client c) (listers c) v (crossNS c) (globalConfigMapKey c)
    (tcpConfigMapKey c) (acmeSecretKeyName c) (acmeTokenConfigmapName c)
    (timers c) (clear c) (needResync c) (globalConfigMapData c)
    (tcpConfigMapData c) (newGlobalConfigMapData c) (newTCPConfigMapData c)
    (delIngresses c) (updIngresses c) (addIngresses c) (newEndpoints c)
    (delServices c) (updServices c) (addServices c) (delSecrets c)
    (updSecrets c) (addSecrets c) (newPods c).
Definition set_timers (v : list Z) (c : k8scache) : k8scache :=
  Build_k8scache (client c) (listers c) (controller c) (crossNS c)
    (globalConfigMapKey c) (tcpConfigMapKey c) (acmeSecretKeyName c)
    (acmeTokenConfigmapName c) v (clear c) (needResync c)
    (globalConfigMapData c) (tcpConfigMapData c) (newGlobalConfigMapData c)
    (newTCPConfigMapData c) (delIngresses c) (updIngresses c) (addIngresses
    c) (newEndpoints c) (delServices c) (updServices c) (addServices c)
    (delSecrets c) (updSecrets c) (addSecrets c) (newPods c).
Definition set_clear (v : bool) (c : k8scache) : k8scache :=
  Build_k8scache (client c) (listers c) (controller c) (crossNS c)
    (globalConfigMapKey c) (tcpConfigMapKey c) (acmeSecretKeyName c)
    (acmeTokenConfigmapName c) (timers c) v (needResync c)
    (globalConfigMapData c) (tcpConfigMapData c) (newGlobalConfigMapData c)
    (newTCPConfigMapData c) (delIngresses c) (updIngresses c) (addIngresses
    c) (newEndpoints c) (delServices c) (updServices c) (addServices c)
    (delSecrets c) (updSecrets c) (addSecrets c) (newPods c).
Definition set_needResync (v : bool) (c : k8scache) : k8scache :=
  Build_k8scache (client c) (listers c) (controller c) (crossNS c)
    (globalConfigMapKey c) (tcpConfigMapKey c) (acmeSecretKeyName c)
    (acmeTokenConfigmapName c) (timers c) (clear c) v (globalConfigMapData
    c) (tcpConfigMapData c) (newGlobalConfigMapData c) (newTCPConfigMapData
    c) (delIngresses c) (updIngresses c) (addIngresses c) (newEndpoints c)
    (delServices c) (updServices c) (addServices c) (delSecrets c)
    (updSecrets c) (addSecrets c) (newPods c).
Definition set_globalConfigMapData (v : option (gmap string string)) (c : k8scache) : k8scache :=
  Build_k8scache (client c) (listers c) (controller c) (crossNS c)
    (globalConfigMapKey c) (tcpConfigMapKey c) (acmeSecretKeyName c)
    (acmeTokenConfigmapName c) (timers c) (clear c) (needResync c) v
    (tcpConfigMapData c) (newGlobalConfigMapData c) (newTCPConfigMapData c)
    (delIngresses c) (updIngresses c) (addIngresses c) (newEndpoints c)
    (delServices c) (updServices c) (addServices c) (delSecrets c)
    (updSecrets c) (addSecrets c) (newPods c).
Definition set_tcpConfigMapData (v : option (gmap string string)) (c : k8scache) : k8scache :=
  Build_k8scache (client c) (listers c) (controller c) (crossNS c)
    (globalConfigMapKey c) (tcpConfigMapKey c) (acmeSecretKeyName c)
    (acmeTokenConfigmapName c) (timers c) (clear c) (needResync c)
    (globalConfigMapData c) v (newGlobalConfigMapData c)
    (newTCPConfigMapData c) (delIngresses c) (updIngresses c) (addIngresses
    c) (newEndpoints c) (delServices c) (updServices c) (addServices c)
    (delSecrets c) (updSecrets c) (addSecrets c) (newPods c).
Definition set_newGlobalConfigMapData (v : option (gmap string string)) (c : k8scache) : k8scache :=
  Build_k8scache (client c) (listers c) (controller c) (crossNS c)
    (globalConfigMapKey c) (tcpConfigMapKey c) (acmeSecretKeyName c)
    (acmeTokenConfigmapName c) (timers c) (clear c) (needResync c)
    (globalConfigMapData c) (tcpConfigMapData c) v (newTCPConfigMapData c)
    (delIngresses c) (updIngresses c) (addIngresses c) (newEndpoints c)
    (delServices c) (updServices c) (addServices c) (delSecrets c)
    (updSecrets c) (addSecrets c) (newPods c).
Definition set_newTCPConfigMapData (v : option (gmap string string)) (c : k8scache) : k8scache :=
  Build_k8scache (client c) (listers c) (controller c) (crossNS c)
    (globalConfigMapKey c) (tcpConfigMapKey c) (acmeSecretKeyName c)
    (acmeTokenConfigmapName c) (timers c) (clear c) (needResync c)
    (globalConfigMapData c) (tcpConfigMapData c) (newGlobalConfigMapData c)
    v (delIngresses c) (updIngresses c) (addIngresses c) (newEndpoints c)
    (delServices c) (updServices c) (addServices c) (delSecrets c)
    (updSecrets c) (addSecrets c) (newPods c).
Definition set_delIngresses (v : list Ingress) (c : k8scache) : k8scache :=
  Build_k8scache (client c) (listers c) (controller c) (crossNS c)
    (globalConfigMapKey c) (tcpConfigMapKey c) (acmeSecretKeyName c)
    (acmeTokenConfigmapName c) (timers c) (clear c) (needResync c)
    (globalConfigMapData c) (tcpConfigMapData c) (newGlobalConfigMapData c)
    (newTCPConfigMapData c) v (updIngresses c) (addIngresses c)
    (newEndpoints c) (delServices c) (updServices c) (addServices c)
    (delSecrets c) (updSecrets c) (addSecrets c) (newPods c).
Definition set_updIngresses (v : list Ingress) (c : k8scache) : k8scache :=
  Build_k8scache (client c) (listers c) (controller c) (crossNS c)
    (globalConfigMapKey c) (tcpConfigMapKey c) (acmeSecretKeyName c)
    (acmeTokenConfigmapName c) (timers c) (clear c) (needResync c)
    (globalConfigMapData c) (tcpConfigMapData c) (newGlobalConfigMapData c)
    (newTCPConfigMapData c) (delIngresses c) v (addIngresses c)
    (newEndpoints c) (delServices c) (updServices c) (addServices c)
    (delSecrets c) (updSecrets c) (addSecrets c) (newPods c).
Definition set_addIngresses (v : list Ingress) (c : k8scache) : k8scache :=
  Build_k8scache (client c) (listers c) (controller c) (crossNS c)
    (globalConfigMapKey c) (tcpConfigMapKey c) (acmeSecretKeyName c)
    (acmeTokenConfigmapName c) (timers c) (clear c) (needResync c)
    (globalConfigMapData c) (tcpConfigMapData c) (newGlobalConfigMapData c)
    (newTCPConfigMapData c) (delIngresses c) (updIngresses c) v
    (newEndpoints c) (delServices c) (updServices c) (addServices c)
    (delSecrets c) (updSecrets c) (addSecrets c) (newPods c).
Definition set_newEndpoints (v : list Endpoints) (c : k8scache) : k8scache :=
  Build_k8scache (client c) (listers c) (controller c) (crossNS c)
    (globalConfigMapKey c) (tcpConfigMapKey c) (acmeSecretKeyName c)
    (acmeTokenConfigmapName c) (timers c) (clear c) (needResync c)
    (globalConfigMapData c) (tcpConfigMapData c) (newGlobalConfigMapData c)
    (newTCPConfigMapData c) (delIngresses c) (updIngresses c) (addIngresses
    c) v (delServices c) (updServices c) (addServices c) (delSecrets c)
    (updSecrets c) (addSecrets c) (newPods c).
Definition set_delServices (v : list Service) (c : k8scache) : k8scache :=
  Build_k8scache (client c) (listers c) (controller c) (crossNS c)
    (globalConfigMapKey c) (tcpConfigMapKey c) (acmeSecretKeyName c)
    (acmeTokenConfigmapName c) (timers c) (clear c) (needResync c)
    (globalConfigMapData c) (tcpConfigMapData c) (newGlobalConfigMapData c)
    (newTCPConfigMapData c) (delIngresses c) (updIngresses c) (addIngresses
    c) (newEndpoints c) v (updServices c) (addServices c) (delSecrets c)
    (updSecrets c) (addSecrets c) (newPods c).
Definition set_updServices (v : list Service) (c : k8scache) : k8scache :=
  Build_k8scache (client c) (listers c) (controller c) (crossNS c)
    (globalConfigMapKey c) (tcpConfigMapKey c) (acmeSecretKeyName c)
    (acmeTokenConfigmapName c) (timers c) (clear c) (needResync c)
    (globalConfigMapData c) (tcpConfigMapData c) (newGlobalConfigMapData c)
    (newTCPConfigMapData c) (delIngresses c) (updIngresses c) (addIngresses
    c) (newEndpoints c) (delServices c) v (addServices c) (delSecrets c)
    (updSecrets c) (addSecrets c) (newPods c).
Definition set_addServices (v : list Service) (c : k8scache) : k8scache :=
  Build_k8scache (client c) (listers c) (controller c) (crossNS c)
    (globalConfigMapKey c) (tcpConfigMapKey c) (acmeSecretKeyName c)
    (acmeTokenConfigmapName c) (timers c) (clear c) (needResync c)
    (globalConfigMapData c) (tcpConfigMapData c) (newGlobalConfigMapData c)
    (newTCPConfigMapData c) (delIngresses c) (updIngresses c) (addIngresses
    c) (newEndpoints c) (delServices c) (updServices c) v (delSecrets c)
    (updSecrets c) (addSecrets c) (newPods c).
Definition set_delSecrets (v : list Secret) (c : k8scache) : k8scache :=
  Build_k8scache (client c) (listers c) (controller c) (crossNS c)
    (globalConfigMapKey c) (tcpConfigMapKey c) (acmeSecretKeyName c)
    (acmeTokenConfigmapName c) (timers c) (clear c) (needResync c)
    (globalConfigMapData c) (tcpConfigMapData c) (newGlobalConfigMapData c)
    (newTCPConfigMapData c) (delIngresses c) (updIngresses c) (addIngresses
    c) (newEndpoints c) (delServices c) (updServices c) (addServices c) v
    (updSecrets c) (addSecrets c) (newPods c).
Definition set_updSecrets (v : list Secret) (c : k8scache) : k8scache :=
  Build_k8scache (client c) (listers c) (controller c) (crossNS c)
    (globalConfigMapKey c) (tcpConfigMapKey c) (acmeSecretKeyName c)
    (acmeTokenConfigmapName c) (timers c) (clear c) (needResync c)
    (globalConfigMapData c) (tcpConfigMapData c) (newGlobalConfigMapData c)
    (newTCPConfigMapData c) (delIngresses c) (updIngresses c) (addIngresses
    c) (newEndpoints c) (delServices c) (updServices c) (addServices c)
    (delSecrets c) v (addSecrets c) (newPods c).
Definition set_addSecrets (v : list Secret) (c : k8scache) : k8scache :=
  Build_k8scache (client c) (listers c) (controller c) (crossNS c)
    (globalConfigMapKey c) (tcpConfigMapKey c) (acmeSecretKeyName c)
    (acmeTokenConfigmapName c) (timers c) (clear c) (needResync c)
    (globalConfigMapData c) (tcpConfigMapData c) (newGlobalConfigMapData c)
    (newTCPConfigMapData c) (delIngresses c) (updIngresses c) (addIngresses
    c) (newEndpoints c) (delServices c) (updServices c) (addServices c)
    (delSecrets c) (updSecrets c) v (newPods c).
Definition set_newPods (v : list Pod) (c : k8scache) : k8scache :=
  Build_k8scache (client c) (listers c) (controller c) (crossNS c)
    (globalConfigMapKey c) (tcpConfigMapKey c) (acmeSecretKeyName c)
    (acmeTokenConfigmapName c) (timers c) (clear c) (needResync c)
    (globalConfigMapData c) (tcpConfigMapData c) (newGlobalConfigMapData c)
    (newTCPConfigMapData c) (delIngresses c) (updIngresses c) (addIngresses
    c) (newEndpoints c) (delServices c) (updServices c) (addServices c)
    (delSecrets c) (updSecrets c) (addSecrets c) v.

(** [createCache]: [podNamespace] is the POD_NAMESPACE variable of the
    environment, [cfg] the controller's configuration. *)
Record Configuration : Type := {
  AcmeSecretKeyName : string;
  AcmeTokenConfigmapName : string;
  ConfigMapName : string;
  TCPConfigMapName : string;
  AllowCrossNamespace : bool
}.

Definition createCache (podNamespace : string) (cfg : Configuration)
    (client : Client) (listers : Listers) (controller : GenericController)
    : k8scache :=
  let namespace :=
    if bool_decide (podNamespace = "") then "default" else podNamespace in
  let qualify (name : string) :=
    if negb (strings.ContainsByte name slash)
    then namespace +:+ "/" +:+ name else name in
  {| client := client;
     listers := listers;
     controller := controller;
     crossNS := AllowCrossNamespace cfg;
     globalConfigMapKey := ConfigMapName cfg;
     tcpConfigMapKey := TCPConfigMapName cfg;
     acmeSecretKeyName := qualify (AcmeSecretKeyName cfg);
     acmeTokenConfigmapName := qualify (AcmeTokenConfigmapName cfg);
     timers := [];
     clear := true;
     needResync := false;
     globalConfigMapData := None;
     tcpConfigMapData := None;
     newGlobalConfigMapData := None;
     newTCPConfigMapData := None;
     delIngresses := []; updIngresses := []; addIngresses := [];
     newEndpoints := [];
     delServices := []; updServices := []; addServices := [];
     delSecrets := []; updSecrets := []; addSecrets := [];
     newPods := [] |}.

(** ** Lookups through the listers *)

Definition GetSecret (c : k8scache) (secretName : string) : result Secret :=
  match SplitMetaNamespaceKey secretName with
  | Err e => Err e
  | Ok (namespace, name) =>
      lister_Get secretKey (secretLister (listers c)) namespace name
  end.

Definition GetConfigMap (c : k8scache) (configMapName : string)
    : result ConfigMap :=
  match SplitMetaNamespaceKey configMapName with
  | Err e => Err e
  | Ok (namespace, name) =>
      lister_Get configMapKey (configMapLister (listers c)) namespace name
  end.

(** ** Terminating pods *)

(** The label selectors of k8s.io/apimachinery/pkg/labels: [labels_Parse]
    is [labels.Parse] ([None] when it returns an error) and [Matches] is
    [Selector.Matches] on a label set. *)
Class LabelsLib : Type := {
  Selector : Type;
  labels_Parse : string -> option Selector;
  Matches : Selector -> gmap string string -> bool
}.

(** [isTerminatingPod]: the pod belongs to [svc] and is terminating. *)
Definition isTerminatingPod (svc : Service) (pod : Pod) : bool :=
  if negb (bool_decide (svc_Namespace svc = pod_Namespace pod)) then false
  else if negb (forallb
                  (fun kv : string * string =>
                     match pod_Labels pod !! kv.1 with
                     | Some labelValue => bool_decide (kv.2 = labelValue)
                     | None => false
                     end)
                  (map_to_list (svc_Selector svc))) then false
  else if bool_decide (pod_DeletionTimestamp pod <> None)
          && negb (bool_decide (pod_Reason pod = "NodeLost"))
          && negb (bool_decide (pod_PodIP pod = "")) then true
  else false.

(** The string [GetTerminatingPods] hands to [labels.Parse]: one "k=v"
    per selector entry, joined by commas.  Go ranges over the map in no
    fixed order; [map_to_list] is one such order. *)
Definition selectorString (svc : Service) : string :=
  strings.Join
    (map (fun kv : string * string => kv.1 +:+ "=" +:+ kv.2)
         (map_to_list (svc_Selector svc)))
    ",".

(** [podLister.Pods(namespace).List(selector)]: the pods of the store in
    [namespace] that the selector matches; reading the store does not
    fail. *)
Definition podLister_List `{LabelsLib} (pods : list Pod) (namespace : string)
    (l : Selector) : list Pod :=
  List.filter
    (fun p => bool_decide (pod_Namespace p = namespace)
              && Matches l (pod_Labels p))
    pods.

Definition GetTerminatingPods `{LabelsLib} (c : k8scache) (service : Service)
    : result (list Pod) :=
  match labels_Parse (selectorString service) with
  | None => Err (ErrLabelSelector (selectorString service))
  | Some l =>
      let list := podLister_List (podLister (listers c))
                    (svc_Namespace service) l in
      Ok (List.filter (isTerminatingPod service) list)
  end.

(** ** Secret names *)

Definition buildSecretName (c : k8scache)
    (defaultNamespace secretName : string) : result (string * string) :=
  match SplitMetaNamespaceKey secretName with
  | Err e => Err e
  | Ok (ns, name) =>
      if bool_decide (defaultNamespace = "") then Ok (ns, name)
      else if bool_decide (ns = "") then Ok (defaultNamespace, name)
      else if crossNS c || bool_decide (ns = defaultNamespace)
      then Ok (ns, name)
      else Err (ErrCrossNamespace secretName defaultNamespace)
  end.

(** ** Create-or-update *)

(** [func (c *k8scache) CreateOrUpdateSecret(secret) (err error)].  The
    [if _, err := ...Get(...); err != nil] header declares an [err] of
    its own, and it is that inner variable the two branches assign the
    result of [Create] and [Update] to.  [return err] returns the named
    result, which nothing assigns: the answer is nil on every path, also
    when the API server refused the call. *)
Definition CreateOrUpdateSecret (secret : Secret) (c : k8scache)
    : k8scache * option error :=
  let cli := client c in
  let err : option error := None in          (* the named result *)
  let '(secrets, innerErr) :=
    match lister_Get secretKey (secretLister (listers c))
            (sec_Namespace secret) (sec_Name secret) with
    | Err _ => api_Create secretKey secret (cli_Secrets cli)
    | Ok _ => api_Update secretKey secret (cli_Secrets cli)
    end in
  (set_client {| cli_Secrets := secrets;
                 cli_ConfigMaps := cli_ConfigMaps cli |} c, err).

(** [CreateOrUpdateConfigMap]: the same shape, and the same nil. *)
Definition CreateOrUpdateConfigMap (cm : ConfigMap) (c : k8scache)
    : k8scache * option error :=
  let cli := client c in
  let err : option error := None in          (* the named result *)
  let '(configMaps, innerErr) :=
    match lister_Get configMapKey (configMapLister (listers c))
            (cm_Namespace cm) (cm_Name cm) with
    | Err _ => api_Create configMapKey cm (cli_ConfigMaps cli)
    | Ok _ => api_Update configMapKey cm (cli_ConfigMaps cli)
    end in
  (set_client {| cli_Secrets := cli_Secrets cli;
                 cli_ConfigMaps := configMaps |} c, err).

(** The lister and the API server agree on whether the object of that
    namespace and name exists: then the API server accepts what
    create-or-update sends, a create of a new object or an update of an
    existing one. *)
Definition agree {A : Type} (key : A -> string * string)
    (namespace name : string) (lister server : list A) : Prop :=
  is_Some (store_get key namespace name lister)
  <-> is_Some (store_get key namespace name server).

(** The Resource Watch Layer catching up: the informers deliver what the
    API server holds, and the listers answer from it. *)
Definition informerSync (c : k8scache) : k8scache :=
  set_listers {| secretLister := cli_Secrets (client c);
                 configMapLister := cli_ConfigMaps (client c);
                 podLister := podLister (listers c) |} c.

(** ** ACME: the account key and the issued certificate *)

(** crypto/rsa, crypto/x509 and encoding/pem.  A function that returns an
    error, or a nil block, is [None] there. *)
Class CryptoLib : Type := {
  PrivateKey : Type;
  Certificate : Type;
  pem_Decode : bytes -> option bytes;           (* the block's Bytes *)
  pem_EncodeToMemory : string -> bytes -> bytes; (* block type, Bytes *)
  x509_ParsePKCS1PrivateKey : bytes -> option PrivateKey;
  x509_MarshalPKCS1PrivateKey : PrivateKey -> bytes;
  x509_ParseCertificate : bytes -> option Certificate;
  rsa_GenerateKey : Z -> option PrivateKey       (* on rand.Reader; bits *)
}.

(** The first half of [GetKey]: [Ok None] leaves [key] nil, as when
    [GetSecret] fails. *)
Definition readKey `{CryptoLib} (c : k8scache) : result (option PrivateKey) :=
  match GetSecret c (acmeSecretKeyName c) with
  | Ok secret =>
      match sec_Data secret !! TLSPrivateKeyKey with
      | None => Err (ErrSecretHasNoKey (acmeSecretKeyName c))
      | Some pemKey =>
          match pem_Decode pemKey with
          | None => Err (ErrInvalidPem (acmeSecretKeyName c))
          | Some derBlock =>
              match x509_ParsePKCS1PrivateKey derBlock with
              | None => Err ErrParsePrivateKey
              | Some key => Ok (Some key)
              end
          end
      end
  | Err _ => Ok None
  end.

Definition GetKey `{CryptoLib} (c : k8scache) : k8scache * result PrivateKey :=
  match readKey c with
  | Err e => (c, Err e)
  | Ok (Some key) => (c, Ok key)
  | Ok None =>
      match SplitMetaNamespaceKey (acmeSecretKeyName c) with
      | Err e => (c, Err e)
      | Ok (namespace, name) =>
          match rsa_GenerateKey 2048 with
          | None => (c, Err ErrGenerateKey)
          | Some key =>
              let pemEncode :=
                pem_EncodeToMemory "RSA PRIVATE KEY"
                  (x509_MarshalPKCS1PrivateKey key) in
              let newSecret :=
                {| sec_Namespace := namespace;
                   sec_Name := name;
                   sec_Type := SecretTypeOpaque;
                   sec_Data := {[ TLSPrivateKeyKey := pemEncode ]} |} in
              match CreateOrUpdateSecret newSecret c with
              | (c', Some e) => (c', Err e)
              | (c', None) => (c', Ok key)
              end
          end
      end
  end.

Record TLSSecret `{CryptoLib} : Type := {
  Crt : Certificate;
  Key : PrivateKey
}.

Definition GetTLSSecretContent `{CryptoLib} (c : k8scache)
    (secretName : string) : option TLSSecret :=
  match GetSecret c secretName with
  | Err _ => None
  | Ok secret =>
      match sec_Data secret !! TLSCertKey,
            sec_Data secret !! TLSPrivateKeyKey with
      | Some pemCrt, Some pemKey =>
          match pem_Decode pemCrt, pem_Decode pemKey with
          | Some derCrt, Some derKey =>
              match x509_ParseCertificate derCrt,
                    x509_ParsePKCS1PrivateKey derKey with
              | Some crt, Some key => Some {| Crt := crt; Key := key |}
              | _, _ => None
              end
          | _, _ => None
          end
      | _, _ => None
      end
  end.

Definition SetTLSSecretContent (c : k8scache) (secretName : string)
    (pemCrt pemKey : bytes) : k8scache * option error :=
  match SplitMetaNamespaceKey secretName with
  | Err e => (c, Some e)
  | Ok (namespace, name) =>
      CreateOrUpdateSecret
        {| sec_Namespace := namespace;
           sec_Name := name;
           sec_Type := SecretTypeTLS;
           sec_Data := {[ TLSCertKey := pemCrt; TLSPrivateKeyKey := pemKey ]} |}
        c
  end.

(** ** ACME: challenge tokens *)

Definition GetToken (c : k8scache) (domain uri : string) : string :=
  match GetConfigMap c (acmeTokenConfigmapName c) with
  | Err _ => ""
  | Ok config =>
      match default ∅ (cm_Data config) !! domain with
      | None => ""
      | Some data =>
          let prefix := uri +:+ "=" in
          if negb (strings.HasPrefix data prefix) then ""
          else strings.TrimPrefix data prefix
      end
  end.

(** [SetToken] writes through the pointer the lister returned: when the
    config map is in the lister's store, the store sees the new [Data]
    before the API server is called. *)
Definition SetToken (c : k8scache) (domain uri token : string)
    : k8scache * option error :=
  match SplitMetaNamespaceKey (acmeTokenConfigmapName c) with
  | Err e => (c, Some e)
  | Ok (namespace, name) =>
      let found :=
        lister_Get configMapKey (configMapLister (listers c)) namespace name in
      let config :=
        match found with
        | Ok config => config
        | Err _ => {| cm_Namespace := namespace; cm_Name := name;
                      cm_Data := None |}
        end in
      let data := default ∅ (cm_Data config) in
      let data :=
        if negb (bool_decide (token = ""))
        then <[ domain := uri +:+ "=" +:+ token ]> data
        else delete domain data in
      let config :=
        {| cm_Namespace := cm_Namespace config; cm_Name := cm_Name config;
           cm_Data := Some data |} in
      let c :=
        match found with
        | Ok _ =>
            set_listers
              {| secretLister := secretLister (listers c);
                 configMapLister :=
                   store_replace configMapKey config
                     (configMapLister (listers c));
                 podLister := podLister (listers c) |} c
        | Err _ => c
        end in
      CreateOrUpdateConfigMap config c
  end.

(** ** The dirty-state aggregator *)

(** [Notify(old, cur)], called at time [now], is four statements in a
    row, under the mutex.  First: both values nil asks for a resync. *)
Definition noteResync (old cur : option object) (c : k8scache) : k8scache :=
  match old, cur with
  | None, None => set_needResync true c
  | _, _ => c
  end.

(** Second, [if old != nil { switch old.(type) ... }]: deletions. *)
Definition noteOld (old cur : option object) (c : k8scache) : k8scache :=
  match old with
  | Some (ObjIngress ing) =>
      match cur with
      | None => set_delIngresses (delIngresses c ++ [ing]) c
      | Some _ => c
      end
  | Some (ObjService svc) =>
      match cur with
      | None => set_delServices (delServices c ++ [svc]) c
      | Some _ => c
      end
  | Some (ObjSecret secret) =>
      match cur with
      | None =>
          let c := set_delSecrets (delSecrets c ++ [secret]) c in
          set_controller
            (DeleteSecret (sec_Namespace secret +:+ "/" +:+ sec_Name secret)
               (controller c)) c
      | Some _ => c
      end
  | _ => c
  end.

(** Third, [if cur != nil { switch cur.(type) ... }]: additions, updates,
    observations and pending config data. *)
Definition noteCur (old cur : option object) (c : k8scache) : k8scache :=
  match cur with
  | Some (ObjIngress ing) =>
      match old with
      | None => set_addIngresses (addIngresses c ++ [ing]) c
      | Some _ => set_updIngresses (updIngresses c ++ [ing]) c
      end
  | Some (ObjEndpoints ep) => set_newEndpoints (newEndpoints c ++ [ep]) c
  | Some (ObjService svc) =>
      match old with
      | None => set_addServices (addServices c ++ [svc]) c
      | Some _ => set_updServices (updServices c ++ [svc]) c
      end
  | Some (ObjSecret secret) =>
      match old with
      | None => set_addSecrets (addSecrets c ++ [secret]) c
      | Some _ => set_updSecrets (updSecrets c ++ [secret]) c
      end
  | Some (ObjConfigMap cm) =>
      let key := cm_Namespace cm +:+ "/" +:+ cm_Name cm in
      if bool_decide (key = globalConfigMapKey c)
      then set_newGlobalConfigMapData (cm_Data cm) c
      else if bool_decide (key = tcpConfigMapKey c)
      then set_newTCPConfigMapData (cm_Data cm) c
      else c
  | Some (ObjPod pod) => set_newPods (newPods c ++ [pod]) c
  | _ => c
  end.

(** Fourth, [if c.clear { time.AfterFunc(500*time.Millisecond, ...) }]
    and [c.clear = false]. *)
Definition armTimer (now : Z) (c : k8scache) : k8scache :=
  let c := if clear c then set_timers (timers c ++ [now + 500]) c else c in
  set_clear false c.

Definition Notify (now : Z) (old cur : option object) (c : k8scache)
    : k8scache :=
  let c := noteResync old cur c in
  let c := noteOld old cur c in
  let c := noteCur old cur c in
  armTimer now c.

Definition NeedResync (c : k8scache) : bool := needResync c.

Definition GlobalConfig (c : k8scache)
    : option (gmap string string) * option (gmap string string) :=
  (globalConfigMapData c, newGlobalConfigMapData c).

(** The [GetDirty*] methods return fresh slices with the same elements. *)
Definition GetDirtyIngresses (c : k8scache)
    : list Ingress * list Ingress * list Ingress :=
  (delIngresses c, updIngresses c, addIngresses c).

Definition GetDirtyEndpoints (c : k8scache) : list Endpoints := newEndpoints c.

Definition GetDirtyServices (c : k8scache)
    : list Service * list Service * list Service :=
  (delServices c, updServices c, addServices c).

Definition GetDirtySecrets (c : k8scache)
    : list Secret * list Secret * list Secret :=
  (delSecrets c, updSecrets c, addSecrets c).

Definition GetDirtyPods (c : k8scache) : list Pod := newPods c.

Definition SyncNewObjects (c : k8scache) : k8scache :=
  let c := set_newPods [] c in
  let c := set_newEndpoints [] c in
  (* Secrets *)
  let c := set_delSecrets [] c in
  let c := set_updSecrets [] c in
  let c := set_addSecrets [] c in
  (* Ingress *)
  let c := set_delIngresses [] c in
  let c := set_updIngresses [] c in
  let c := set_addIngresses [] c in
  (* ConfigMaps *)
  let c :=
    match newGlobalConfigMapData c with
    | Some data =>
        set_newGlobalConfigMapData None (set_globalConfigMapData (Some data) c)
    | None => c
    end in
  let c :=
    match newTCPConfigMapData c with
    | Some data =>
        set_newTCPConfigMapData None (set_tcpConfigMapData (Some data) c)
    | None => c
    end in
  let c := set_clear true c in
  set_needResync false c.

(** ** Runs of the aggregator *)

(** A call of [Notify], with the time it is made at. *)
Record ChangeEvent : Type := {
  ev_time : Z;
  ev_old : option object;
  ev_cur : option object
}.

Definition NotifyEvent (c : k8scache) (e : ChangeEvent) : k8scache :=
  Notify (ev_time e) (ev_old e) (ev_cur e) c.

Definition NotifyAll (events : list ChangeEvent) (c : k8scache) : k8scache :=
  fold_left NotifyEvent events c.

(** What the consumer reads at the end of a window: the eleven dirty
    lists, the resync flag, and the calls of the invalidation hook. *)
Record DirtySet : Type := {
  d_delIngresses : list Ingress;
  d_updIngresses : list Ingress;
  d_addIngresses : list Ingress;
  d_newEndpoints : list Endpoints;
  d_delServices : list Service;
  d_updServices : list Service;
  d_addServices : list Service;
  d_delSecrets : list Secret;
  d_updSecrets : list Secret;
  d_addSecrets : list Secret;
  d_newPods : list Pod;
  d_needResync : bool;
  d_DeleteSecret : list string
}.

Definition dirty (c : k8scache) : DirtySet :=
  let '(delIng, updIng, addIng) := GetDirtyIngresses c in
  let '(delSvc, updSvc, addSvc) := GetDirtyServices c in
  let '(delSec, updSec, addSec) := GetDirtySecrets c in
  {| d_delIngresses := delIng; d_updIngresses := updIng;
     d_addIngresses := addIng;
     d_newEndpoints := GetDirtyEndpoints c;
     d_delServices := delSvc; d_updServices := updSvc;
     d_addServices := addSvc;
     d_delSecrets := delSec; d_updSecrets := updSec;
     d_addSecrets := addSec;
     d_newPods := GetDirtyPods c;
     d_needResync := NeedResync c;
     d_DeleteSecret := ctl_DeleteSecret (controller c) |}.

(** ** The window's events, classified *)

(** How an event reads by which of its two values are present. *)
Inductive Change : Type :=
  | Resync
  | Deleted (old : object)
  | Added (cur : object)
  | Updated (cur : object).

Definition classify (e : ChangeEvent) : Change :=
  match ev_old e, ev_cur e with
  | None, None => Resync
  | Some old, None => Deleted old
  | None, Some cur => Added cur
  | Some _, Some cur => Updated cur
  end.

(** The dirty set a list of classified events amounts to: each list holds
    the events of its class and kind, in the order they came. *)
Definition collected (changes : list Change) : DirtySet :=
  {| d_delIngresses :=
       omap (fun ch => match ch with Deleted (ObjIngress x) => Some x | _ => None end) changes;
     d_updIngresses :=
       omap (fun ch => match ch with Updated (ObjIngress x) => Some x | _ => None end) changes;
     d_addIngresses :=
       omap (fun ch => match ch with Added (ObjIngress x) => Some x | _ => None end) changes;
     d_newEndpoints :=
       omap (fun ch => match ch with
                       | Added (ObjEndpoints x) | Updated (ObjEndpoints x) => Some x
                       | _ => None
                       end) changes;
     d_delServices :=
       omap (fun ch => match ch with Deleted (ObjService x) => Some x | _ => None end) changes;
     d_updServices :=
       omap (fun ch => match ch with Updated (ObjService x) => Some x | _ => None end) changes;
     d_addServices :=
       omap (fun ch => match ch with Added (ObjService x) => Some x | _ => None end) changes;
     d_delSecrets :=
       omap (fun ch => match ch with Deleted (ObjSecret x) => Some x | _ => None end) changes;
     d_updSecrets :=
       omap (fun ch => match ch with Updated (ObjSecret x) => Some x | _ => None end) changes;
     d_addSecrets :=
       omap (fun ch => match ch with Added (ObjSecret x) => Some x | _ => None end) changes;
     d_newPods :=
       omap (fun ch => match ch with
                       | Added (ObjPod x) | Updated (ObjPod x) => Some x
                       | _ => None
                       end) changes;
     d_needResync :=
       existsb (fun ch => match ch with Resync => true | _ => false end) changes;
     d_DeleteSecret :=
       omap (fun ch => match ch with
                       | Deleted (ObjSecret x) =>
                           Some (sec_Namespace x +:+ "/" +:+ sec_Name x)
                       | _ => None
                       end) changes |}.

(** Union of dirty sets, list by list, keeping order. *)
Definition dirty_union (a b : DirtySet) : DirtySet :=
  {| d_delIngresses := d_delIngresses a ++ d_delIngresses b;
     d_updIngresses := d_updIngresses a ++ d_updIngresses b;
     d_addIngresses := d_addIngresses a ++ d_addIngresses b;
     d_newEndpoints := d_newEndpoints a ++ d_newEndpoints b;
     d_delServices := d_delServices a ++ d_delServices b;
     d_updServices := d_updServices a ++ d_updServices b;
     d_addServices := d_addServices a ++ d_addServices b;
     d_delSecrets := d_delSecrets a ++ d_delSecrets b;
     d_updSecrets := d_updSecrets a ++ d_updSecrets b;
     d_addSecrets := d_addSecrets a ++ d_addSecrets b;
     d_newPods := d_newPods a ++ d_newPods b;
     d_needResync := d_needResync a || d_needResync b;
     d_DeleteSecret := d_DeleteSecret a ++ d_DeleteSecret b |}.

(** Every object some dirty list holds. *)
Definition recorded (d : DirtySet) : list object :=
  map ObjIngress (d_delIngresses d ++ d_updIngresses d ++ d_addIngresses d)
  ++ map ObjEndpoints (d_newEndpoints d)
  ++ map ObjService (d_delServices d ++ d_updServices d ++ d_addServices d)
  ++ map ObjSecret (d_delSecrets d ++ d_updSecrets d ++ d_addSecrets d)
  ++ map ObjPod (d_newPods d).

(** The consumer is notified exactly once, within [tolerance] ms of
    [target]: one timer is armed, with such a deadline. *)
Definition firesOnceNear (target tolerance : Z) (c : k8scache) : Prop :=
  exists t, timers c = [t] /\ Z.abs (t - target) <= tolerance.

(** ** Terminating pods and token entries, stated *)

(** The labels carry every entry of the selector map. *)
Definition selects (selector labels : gmap string string) : Prop :=
  forall k v, selector !! k = Some v -> labels !! k = Some v.



(** The config map [SetToken] writes, given the one the lister found. *)
Definition tokenConfigMap (found : result ConfigMap) (namespace name : string)
    (domain uri token : string) : ConfigMap :=
  let config :=
    match found with
    | Ok config => config
    | Err _ => {| cm_Namespace := namespace; cm_Name := name; cm_Data := None |}
    end in
  {| cm_Namespace := cm_Namespace config;
     cm_Name := cm_Name config;
     cm_Data :=
       Some (if negb (bool_decide (token = ""))
             then <[ domain := uri +:+ "=" +:+ token ]> (default ∅ (cm_Data config))
             else delete domain (default ∅ (cm_Data config))) |}.

(** ** Instances to run the cache on *)

(** Equality selectors, "k1=v1,k2=v2": the fragment of the selector
    language [GetTerminatingPods] writes. *)
Module EqualitySelector.

Definition parseRequirement (piece : string) : option (string * string) :=
  match strings.Split piece "="%char with
  | [k; v] => Some (k, v)
  | _ => None
  end.

Definition Parse (selector : string) : option (list (string * string)) :=
  if bool_decide (selector = "") then Some []
  else mapM parseRequirement (strings.Split selector ","%char).

Definition matches (reqs : list (string * string))
    (labels : gmap string string) : bool :=
  forallb (fun kv : string * string =>
             bool_decide (labels !! kv.1 = Some kv.2)) reqs.

Definition lib : LabelsLib :=
  {| Selector := list (string * string);
     labels_Parse := Parse;
     Matches := matches |}.

End EqualitySelector.

(** A stand-in for the crypto packages: a PEM block is its payload after
    a one-byte armour ["-"], a key or a certificate is the bytes of its
    encoding, and key generation yields a fixed key of the length asked. *)
Module ToyCrypto.

Definition armour : Byte.byte := Byte.x2d.

Definition Decode (data : bytes) : option bytes :=
  match data with
  | b :: rest => if Byte.eqb b armour then Some rest else None
  | [] => None
  end.

Definition parse (der : bytes) : option bytes :=
  match der with
  | [] => None
  | _ :: _ => Some der
  end.

Definition lib : CryptoLib :=
  {| PrivateKey := bytes;
     Certificate := bytes;
     pem_Decode := Decode;
     pem_EncodeToMemory := fun _ der => armour :: der;
     x509_ParsePKCS1PrivateKey := parse;
     x509_MarshalPKCS1PrivateKey := fun key => key;
     x509_ParseCertificate := parse;
     rsa_GenerateKey := fun bits =>
       if bits =? 2048 then Some [Byte.x01; Byte.x00; Byte.x01] else None |}.

End ToyCrypto.

Definition noConfiguration : Configuration :=
  {| AcmeSecretKeyName := "acme-private-key";
     AcmeTokenConfigmapName := "acme-validation-tokens";
     ConfigMapName := "ingress/haproxy";
     TCPConfigMapName := "ingress/tcp";
     AllowCrossNamespace := false |}.

(** A cache just created, over an empty cluster. *)
Definition emptyCache : k8scache :=
  createCache "ingress" noConfiguration
    {| cli_Secrets := []; cli_ConfigMaps := [] |}
    {| secretLister := []; configMapLister := []; podLister := [] |}
    {| ctl_DeleteSecret := [] |}.

Definition withCrossNS (allow : bool) (c : k8scache) : k8scache :=
  Build_k8scache (client c) (listers c) (controller c) allow
    (globalConfigMapKey c) (tcpConfigMapKey c) (acmeSecretKeyName c)
    (acmeTokenConfigmapName c) (timers c) (clear c) (needResync c)
    (globalConfigMapData c) (tcpConfigMapData c) (newGlobalConfigMapData c)
    (newTCPConfigMapData c) (delIngresses c) (updIngresses c) (addIngresses c)
    (newEndpoints c) (delServices c) (updServices c) (addServices c)
    (delSecrets c) (updSecrets c) (addSecrets c) (newPods c).

Definition webService : Service :=
  {| svc_Namespace := "default"; svc_Name := "web";
     svc_Selector := {[ "app" := "web" ]} |}.

Definition headlessService : Service :=
  {| svc_Namespace := "default"; svc_Name := "any"; svc_Selector := ∅ |}.

Definition globalConfigMap : ConfigMap :=
  {| cm_Namespace := "ingress"; cm_Name := "haproxy";
     cm_Data := Some {[ "timeout-client" := "50s" ]} |}.

Definition someEndpoints : Endpoints :=
  {| ep_Namespace := "default"; ep_Name := "web" |}.

Definition at_ms (t : Z) (old cur : option object) : ChangeEvent :=
  {| ev_time := t; ev_old := old; ev_cur := cur |}.

(** The events of the scenario: three changes at 0, 100 and 490 ms. *)
Definition burst : list ChangeEvent :=
  [ at_ms 0 None (Some (ObjService webService));
    at_ms 100 None (Some (ObjEndpoints someEndpoints));
    at_ms 490 (Some (ObjService webService)) (Some (ObjService webService)) ].

(** The ACME account secret of [emptyCache]'s configuration. *)
Definition accountSecret (data : gmap string bytes) : Secret :=
  {| sec_Namespace := "ingress"; sec_Name := "acme-private-key";
     sec_Type := SecretTypeOpaque; sec_Data := data |}.

(** A new cache whose lister and API server hold the account secret. *)
Definition cacheWithSecret (secret : Secret) : k8scache :=
  createCache "ingress" noConfiguration
    {| cli_Secrets := [secret]; cli_ConfigMaps := [] |}
    {| secretLister := [secret]; configMapLister := []; podLister := [] |}
    {| ctl_DeleteSecret := [] |}.

Definition toyKeyPem : bytes := [ToyCrypto.armour; Byte.x30; Byte.x82].

Definition toyCrtPem : bytes := [ToyCrypto.armour; Byte.x30; Byte.x83].

Definition issuedSecret : Secret :=
  {| sec_Namespace := "ingress"; sec_Name := "acme-private-key";
     sec_Type := SecretTypeTLS;
     sec_Data := {[ TLSCertKey := toyCrtPem; TLSPrivateKeyKey := toyKeyPem ]} |}.

(** A pod with an address; [deleted] is its deletion timestamp and
    [reason] its status reason. *)
Definition terminatingPod (name : string) (labels : gmap string string)
    (namespace : string) (deleted : option Z) (reason : string) : Pod :=
  {| pod_Namespace := namespace; pod_Name := name; pod_Labels := labels;
     pod_DeletionTimestamp := deleted; pod_Reason := reason;
     pod_PodIP := "10.0.0.7" |}.

(** A new cache whose pod lister holds [pods]. *)
Definition cacheWithPods (pods : list Pod) : k8scache :=
  createCache "ingress" noConfiguration
    {| cli_Secrets := []; cli_ConfigMaps := [] |}
    {| secretLister := []; configMapLister := []; podLister := pods |}
    {| ctl_DeleteSecret := [] |}.

Definition podDraining : Pod :=
  terminatingPod "web-1" {[ "app" := "web"; "tier" := "front" ]} "default" (Some 0) "".

Definition podNodeLost : Pod :=
  terminatingPod "web-2" {[ "app" := "web" ]} "default" (Some 0) "NodeLost".

Definition podRunning : Pod :=
  terminatingPod "web-3" {[ "app" := "web" ]} "default" None "".

Definition podOther : Pod :=
  terminatingPod "db-1" {[ "app" := "db" ]} "default" (Some 0) "".

(** ** The rest of the resolver *)

(** [dhparamFilename] *)
Definition dhparamFilename : string := "dhparam.pem".

(** What the resolver adds to the errors of the calls it makes. *)
Inductive pathError : Type :=
  | Inherited (e : error)
      (* returned as it came: buildSecretName, a lister, the controller *)
  | ErrNoTLSKeys (namespace name : string)
      (* "secret '%s/%s' does not have keys 'tls.crt' and 'tls.key'" *)
  | ErrNoCAKey (namespace name : string)
      (* "secret '%s/%s' does not have key 'ca.crt'" *)
  | ErrNoEntry (namespace name keyName : string).
      (* "secret '%s/%s' does not have key '%s'" *)

(** How a call ends: with its values, with an error, or in a nil
    dereference. *)
Inductive outcome (A : Type) : Type :=
  | Return (a : A)
  | Fail (e : pathError)
  | Panic.
Arguments Return {A} a.
Arguments Fail {A} e.
Arguments Panic {A}.

(** [x509.Certificate], [ingress.SSLCert], [convtypes.CrtFile] and
    [convtypes.File]: the fields cache.go reads and writes. *)
Record X509Certificate : Type := {
  Subject_CommonName : string;
  NotAfter : Z
}.

Record SSLCert : Type := {
  ssl_Certificate : option X509Certificate;   (* *x509.Certificate *)
  PemFileName : string;
  PemSHA : string;
  CAFileName : string;
  CRLFileName : string
}.

Record CrtFile : Type := {
  crt_Filename : string;
  crt_SHA1Hash : string;
  crt_CommonName : string;
  crt_NotAfter : Z
}.

Record File : Type := {
  file_Filename : string;
  file_SHA1Hash : string
}.

Definition noFile : File := {| file_Filename := ""; file_SHA1Hash := "" |}.

(** [controller.GetCertificate(namespace, name)] of the generic
    controller. *)
Class CertificateLib : Type := {
  GetCertificate : string -> string -> result SSLCert
}.

Definition GetTLSSecretPath `{CertificateLib} (c : k8scache)
    (defaultNamespace secretName : string) : outcome CrtFile :=
  match buildSecretName c defaultNamespace secretName with
  | Err e => Fail (Inherited e)
  | Ok (namespace, name) =>
      match GetCertificate namespace name with
      | Err e => Fail (Inherited e)
      | Ok sslCert =>
          if bool_decide (PemFileName sslCert = "")
          then Fail (ErrNoTLSKeys namespace name)
          else match ssl_Certificate sslCert with
               | None => Panic
               | Some certificate =>
                   Return {| crt_Filename := PemFileName sslCert;
                             crt_SHA1Hash := PemSHA sslCert;
                             crt_CommonName := Subject_CommonName certificate;
                             crt_NotAfter := NotAfter certificate |}
               end
      end
  end.

Definition GetCASecretPath `{CertificateLib} (c : k8scache)
    (defaultNamespace secretName : string) : outcome (File * File) :=
  match buildSecretName c defaultNamespace secretName with
  | Err e => Fail (Inherited e)
  | Ok (namespace, name) =>
      match GetCertificate namespace name with
      | Err e => Fail (Inherited e)
      | Ok sslCert =>
          if bool_decide (CAFileName sslCert = "")
          then Fail (ErrNoCAKey namespace name)
          else
            let ca := {| file_Filename := CAFileName sslCert;
                         file_SHA1Hash := PemSHA sslCert |} in
            let crl :=
              if negb (bool_decide (CRLFileName sslCert = ""))
              then {| file_Filename := CRLFileName sslCert;
                      file_SHA1Hash := PemSHA sslCert |}
              else noFile in
            Return (ca, crl)
      end
  end.

Definition GetSecretContent (c : k8scache)
    (defaultNamespace secretName keyName : string) : outcome bytes :=
  match buildSecretName c defaultNamespace secretName with
  | Err e => Fail (Inherited e)
  | Ok (namespace, name) =>
      match lister_Get secretKey (secretLister (listers c)) namespace name with
      | Err e => Fail (Inherited e)
      | Ok secret =>
          match sec_Data secret !! keyName with
          | None => Fail (ErrNoEntry namespace name keyName)
          | Some data => Return data
          end
      end
  end.

(** [ssl.AddOrUpdateDHParam] and [cfile.SHA1], which write and read
    files. *)
Class FileLib : Type := {
  AddOrUpdateDHParam : string -> bytes -> option string;  (* None: an error *)
  SHA1 : string -> string
}.

(** The errors of [GetDHSecretPath]. *)
Inductive dhError : Type :=
  | DHInherited (e : pathError)
  | ErrCreatingDHParam (pem : string).
      (* "error creating dh-param file '%s': %v" *)

Definition GetDHSecretPath `{FileLib} (c : k8scache)
    (defaultNamespace secretName : string) : File + dhError :=
  match buildSecretName c defaultNamespace secretName with
  | Err e => inr (DHInherited (Inherited e))
  | Ok (namespace, name) =>
      match lister_Get secretKey (secretLister (listers c)) namespace name with
      | Err e => inr (DHInherited (Inherited e))
      | Ok secret =>
          match sec_Data secret !! dhparamFilename with
          | None => inr (DHInherited (ErrNoEntry namespace name dhparamFilename))
          | Some dh =>
              let pem := namespace +:+ "_" +:+ name in
              match AddOrUpdateDHParam pem dh with
              | None => inr (ErrCreatingDHParam pem)
              | Some pemFileName =>
                  inl {| file_Filename := pemFileName;
                         file_SHA1Hash := SHA1 pemFileName |}
              end
          end
      end
  end.

(** ** Config maps the cache watches *)

Definition IsValidConfigMap (c : k8scache) (cm : ConfigMap) : bool :=
  let key := cm_Namespace cm +:+ "/" +:+ cm_Name cm in
  bool_decide (key = globalConfigMapKey c)
  || bool_decide (key = tcpConfigMapKey c).

(** ** Render cycles *)

(** One cycle of the consumer: the events of a window arrive, then the
    consumer syncs. *)
Definition cycle (c : k8scache) (window : list ChangeEvent) : k8scache :=
  SyncNewObjects (NotifyAll window c).

Definition cycles (windows : list (list ChangeEvent)) (c : k8scache)
    : k8scache :=
  fold_left cycle windows c.

(** The deadline the first event of a window sets, if the window has an
    event. *)
Definition windowDeadline (window : list ChangeEvent) : option Z :=
  match window with
  | [] => None
  | e :: _ => Some (ev_time e + 500)
  end.

(** A controller's certificates, as a table, for examples. *)
Definition certificateTable (table : list (string * string * SSLCert))
    : CertificateLib :=
  {| GetCertificate := fun namespace name =>
       match find (fun row => bool_decide (row.1 = (namespace, name))) table with
       | Some row => Ok row.2
       | None => Err (ErrNotFound namespace name)
       end |}.

Definition caCert : SSLCert :=
  {| ssl_Certificate := None; PemFileName := "";
     PemSHA := "3f786850e387550fdab836ed7e6dc881de23001b";
     CAFileName := "/ingress-controller/ssl/b_secret1-ca.pem";
     CRLFileName := "/ingress-controller/ssl/b_secret1-crl.pem" |}.

Definition otherNamespaceSecret : Secret :=
  {| sec_Namespace := "b"; sec_Name := "secret1"; sec_Type := SecretTypeOpaque;
     sec_Data := {[ "auth" := [Byte.x61] ]} |}.

(** A new cache whose lister holds [secrets]. *)
Definition cacheWithSecrets (allowCrossNamespace : bool) (secrets : list Secret)
    : k8scache :=
  withCrossNS allowCrossNamespace
    (createCache "ingress" noConfiguration
       {| cli_Secrets := secrets; cli_ConfigMaps := [] |}
       {| secretLister := secrets; configMapLister := []; podLister := [] |}
       {| ctl_DeleteSecret := [] |}).

Definition noFiles : FileLib :=
  {| AddOrUpdateDHParam := fun _ _ => None; SHA1 := fun _ => "" |}.

Definition defaultNamespaceSecret : Secret :=
  {| sec_Namespace := "a"; sec_Name := "secret1"; sec_Type := SecretTypeOpaque;
     sec_Data := {[ "auth" := [Byte.x62] ]} |}.

(** A cache whose lister has not seen the secret the API server holds. *)
Definition staleCache (secret : Secret) : k8scache :=
  createCache "ingress" noConfiguration
    {| cli_Secrets := [secret]; cli_ConfigMaps := [] |}
    {| secretLister := []; configMapLister := []; podLister := [] |}
    {| ctl_DeleteSecret := [] |}.

(** What [GetTLSSecretContent] makes of the two PEM entries. *)
Definition parsedTLS `{CryptoLib} (pemCrt pemKey : bytes) : option TLSSecret :=
  match pem_Decode pemCrt, pem_Decode pemKey with
  | Some derCrt, Some derKey =>
      match x509_ParseCertificate derCrt,
            x509_ParsePKCS1PrivateKey derKey with
      | Some crt, Some key => Some {| Crt := crt; Key := key |}
      | _, _ => None
      end
  | _, _ => None
  end.

Definition equals : ascii := "="%char.

(** The token config map of [emptyCache]'s configuration, with a
    challenge for one domain, in the lister and at the API server. *)
Definition tokenConfig : ConfigMap :=
  {| cm_Namespace := "ingress"; cm_Name := "acme-validation-tokens";
     cm_Data := Some {[ "other.org" := "/acme/y=tok2" ]} |}.

Definition tokenCache : k8scache :=
  createCache "ingress" noConfiguration
    {| cli_Secrets := []; cli_ConfigMaps := [tokenConfig] |}
    {| secretLister := []; configMapLister := [tokenConfig]; podLister := [] |}
    {| ctl_DeleteSecret := [] |}.

(** The fields [Notify] has no assignment to. *)
Definition untouched (c : k8scache) :=
  (client c, listers c, crossNS c, globalConfigMapKey c, tcpConfigMapKey c,
   acmeSecretKeyName c, acmeTokenConfigmapName c,
   globalConfigMapData c, tcpConfigMapData c).

(** The pending config data. *)
Definition pending (c : k8scache) :=
  (newGlobalConfigMapData c, newTCPConfigMapData c).

(** How often the byte [b] occurs in [s]. *)
Fixpoint countByte (s : string) (b : ascii) : nat :=
  match s with
  | EmptyString => O
  | String a s' => if Ascii.eqb a b then S (countByte s' b) else countByte s' b
  end.

(** A DH-parameter store that names the file after the PEM name. *)
Definition dhFiles : FileLib :=
  {| AddOrUpdateDHParam := fun pem _ => Some ("/ssl/" +:+ pem +:+ ".pem");
     SHA1 := fun _ => "da39a3ee5e6b4b0d3255bfef95601890afd80709" |}.

Definition dhSecret : Secret :=
  {| sec_Namespace := "a"; sec_Name := "dh"; sec_Type := SecretTypeOpaque;
     sec_Data := {[ dhparamFilename := [Byte.x2d] ]} |}.

(** * Properties *)

(** ** Strings and keys *)

Lemma Split_without_sep (s : string) (sep : ascii) :
  strings.ContainsByte s sep = false -> strings.Split s sep = [s].
Proof.
  induction s as [|a s IH]; simpl; [reflexivity|].
  destruct (Ascii.eqb a sep); [discriminate|].
  intros Hs. rewrite (IH Hs). reflexivity.
Qed.

Lemma Split_at_sep (s t : string) (sep : ascii) :
  strings.ContainsByte s sep = false ->
  strings.Split (s +:+ String sep t) sep = s :: strings.Split t sep.
Proof.
  induction s as [|a s IH]; simpl.
  - intros _. rewrite Ascii.eqb_refl. reflexivity.
  - destruct (Ascii.eqb a sep); [discriminate|].
    intros Hs. rewrite (IH Hs). reflexivity.
Qed.

Lemma SplitMetaNamespaceKey_name (name : string) :
  strings.ContainsByte name slash = false ->
  SplitMetaNamespaceKey name = Ok (EmptyString, name).
Proof.
  intros Hname. unfold SplitMetaNamespaceKey.
  rewrite (Split_without_sep _ _ Hname). reflexivity.
Qed.

Lemma SplitMetaNamespaceKey_namespaced (ns name : string) :
  strings.ContainsByte ns slash = false ->
  strings.ContainsByte name slash = false ->
  SplitMetaNamespaceKey (ns +:+ "/" +:+ name) = Ok (ns, name).
Proof.
  intros Hns Hname. unfold SplitMetaNamespaceKey.
  change ("/" +:+ name) with (String slash name).
  rewrite (Split_at_sep _ _ _ Hns), (Split_without_sep _ _ Hname).
  reflexivity.
Qed.

Lemma HasPrefix_app (p s : string) : strings.HasPrefix (p +:+ s) p = true.
Proof.
  induction p as [|a p IH]; simpl; [reflexivity|].
  rewrite Ascii.eqb_refl. exact IH.
Qed.

Lemma drop_app (p s : string) : strings.drop (String.length p) (p +:+ s) = s.
Proof. induction p as [|a p IH]; simpl; [reflexivity | exact IH]. Qed.

Lemma TrimPrefix_app (p s : string) : strings.TrimPrefix (p +:+ s) p = s.
Proof. unfold strings.TrimPrefix. rewrite HasPrefix_app. apply drop_app. Qed.

Lemma string_app_assoc (a b c : string) : (a +:+ b) +:+ c = a +:+ (b +:+ c).
Proof.
  induction a as [|x a IH]; [reflexivity|].
  change (String x ((a +:+ b) +:+ c) = String x (a +:+ (b +:+ c))).
  rewrite IH. reflexivity.
Qed.

(** ** Secret names *)

(** C9: with an empty default namespace [buildSecretName] answers what
    the reference parses to, whatever [crossNS] is: the cross-namespace
    check is not reached.  So "ns/name" resolves to (ns, name) with
    cross-namespace reading disabled, and a bare "name" resolves to the
    empty namespace. *)
Theorem buildSecretName_empty_default (c : k8scache) (secretName : string) :
  buildSecretName c "" secretName = SplitMetaNamespaceKey secretName
  /\ (forall ns name,
        strings.ContainsByte ns slash = false ->
        strings.ContainsByte name slash = false ->
        buildSecretName (withCrossNS false c) "" (ns +:+ "/" +:+ name)
        = Ok (ns, name))
  /\ (forall name,
        strings.ContainsByte name slash = false ->
        buildSecretName c "" name = Ok ("", name)).
Proof.
  split; [|split].
  - unfold buildSecretName.
    destruct (SplitMetaNamespaceKey secretName) as [[ns name]|e]; reflexivity.
  - intros ns name Hns Hname. unfold buildSecretName.
    rewrite (SplitMetaNamespaceKey_namespaced _ _ Hns Hname). reflexivity.
  - intros name Hname. unfold buildSecretName.
    rewrite (SplitMetaNamespaceKey_name _ Hname). reflexivity.
Qed.

Lemma buildSecretName_empty_default_witness :
  buildSecretName (withCrossNS false emptyCache) "" "b/secret1"
  = Ok ("b", "secret1")
  /\ buildSecretName emptyCache "" "secret1" = Ok ("", "secret1").
Proof.
  split.
  - apply (proj1 (proj2 (buildSecretName_empty_default emptyCache "b/secret1"))
             "b" "secret1"); reflexivity.
  - apply (proj2 (proj2 (buildSecretName_empty_default emptyCache "secret1")));
      reflexivity.
Defined.

(** C5, as stated, fails for the empty default namespace: the reference
    "b/secret1" names another namespace, cross-namespace reading is
    disabled, and the call succeeds. *)
Lemma buildSecretName_no_default_not_denied :
  crossNS emptyCache = false
  /\ buildSecretName emptyCache "" "b/secret1" = Ok ("b", "secret1").
Proof. split; reflexivity. Qed.

(** C5 (amended): for a non-empty default namespace and a reference
    "ns/name" whose non-empty namespace differs from it, [buildSecretName]
    fails with the cross-namespace error when [crossNS] is off and returns
    (ns, name) when it is on; it never answers the default namespace. *)
Theorem buildSecretName_cross_namespace
    (c : k8scache) (defaultNamespace ns name : string) :
  defaultNamespace <> "" ->
  ns <> "" ->
  ns <> defaultNamespace ->
  strings.ContainsByte ns slash = false ->
  strings.ContainsByte name slash = false ->
  buildSecretName c defaultNamespace (ns +:+ "/" +:+ name)
  = (if crossNS c then Ok (ns, name)
     else Err (ErrCrossNamespace (ns +:+ "/" +:+ name) defaultNamespace))
  /\ (forall name',
        buildSecretName c defaultNamespace (ns +:+ "/" +:+ name)
        <> Ok (defaultNamespace, name')).
Proof.
  intros Hdef Hns Hne Hs1 Hs2.
  assert (buildSecretName c defaultNamespace (ns +:+ "/" +:+ name)
          = if crossNS c then Ok (ns, name)
            else Err (ErrCrossNamespace (ns +:+ "/" +:+ name) defaultNamespace))
    as Heq.
  { unfold buildSecretName.
    rewrite (SplitMetaNamespaceKey_namespaced _ _ Hs1 Hs2).
    rewrite (bool_decide_eq_false_2 _ Hdef), (bool_decide_eq_false_2 _ Hns),
      (bool_decide_eq_false_2 _ Hne), orb_false_r.
    reflexivity. }
  split; [exact Heq|].
  intros name'. rewrite Heq. destruct (crossNS c); congruence.
Qed.

Lemma buildSecretName_cross_namespace_witness :
  buildSecretName emptyCache "a" "b/secret1"
  = Err (ErrCrossNamespace "b/secret1" "a")
  /\ buildSecretName (withCrossNS true emptyCache) "a" "b/secret1"
     = Ok ("b", "secret1").
Proof.
  split.
  - apply (buildSecretName_cross_namespace emptyCache "a" "b" "secret1");
      (discriminate || reflexivity).
  - apply (buildSecretName_cross_namespace
             (withCrossNS true emptyCache) "a" "b" "secret1");
      (discriminate || reflexivity).
Defined.

(** ** The aggregator *)

Lemma dirty_union_assoc (a b c : DirtySet) :
  dirty_union (dirty_union a b) c = dirty_union a (dirty_union b c).
Proof.
  unfold dirty_union; simpl.
  rewrite <- !(assoc_L (++)), <- orb_assoc. reflexivity.
Qed.

Lemma collected_app (xs ys : list Change) :
  collected (xs ++ ys) = dirty_union (collected xs) (collected ys).
Proof.
  unfold collected, dirty_union; simpl.
  rewrite !omap_app, existsb_app. reflexivity.
Qed.

Lemma collected_cons (x : Change) (xs : list Change) :
  collected (x :: xs) = dirty_union (collected [x]) (collected xs).
Proof. apply (collected_app [x] xs). Qed.

Lemma DirtySet_eq (a b : DirtySet) :
  d_delIngresses a = d_delIngresses b ->
  d_updIngresses a = d_updIngresses b ->
  d_addIngresses a = d_addIngresses b ->
  d_newEndpoints a = d_newEndpoints b ->
  d_delServices a = d_delServices b ->
  d_updServices a = d_updServices b ->
  d_addServices a = d_addServices b ->
  d_delSecrets a = d_delSecrets b ->
  d_updSecrets a = d_updSecrets b ->
  d_addSecrets a = d_addSecrets b ->
  d_newPods a = d_newPods b ->
  d_needResync a = d_needResync b ->
  d_DeleteSecret a = d_DeleteSecret b ->
  a = b.
Proof. destruct a, b; cbn; intros; subst; reflexivity. Qed.

Lemma dirty_armTimer (now : Z) (c : k8scache) :
  dirty (armTimer now c) = dirty c.
Proof. unfold armTimer. destruct (clear c); reflexivity. Qed.

Lemma dirty_noteCur_ConfigMap (old : option object) (cm : ConfigMap)
    (c : k8scache) :
  dirty (noteCur old (Some (ObjConfigMap cm)) c) = dirty c.
Proof.
  unfold noteCur.
  destruct (bool_decide _); [|destruct (bool_decide _)]; reflexivity.
Qed.

(** The field of a dirty set after one event: what came is at its end. *)
Ltac dirty_field :=
  lazy;
  first [ reflexivity
        | symmetry; apply app_nil_r
        | symmetry; apply orb_false_r
        | symmetry; apply orb_true_r ].

(** One call of [Notify] adds the event's own class to the dirty set. *)
Lemma dirty_NotifyEvent (c : k8scache) (e : ChangeEvent) :
  dirty (NotifyEvent c e) = dirty_union (dirty c) (collected [classify e]).
Proof.
  destruct e as [now old cur]. unfold NotifyEvent, Notify, classify.
  cbv zeta. rewrite dirty_armTimer. cbn [ev_time ev_old ev_cur].
  destruct cur as [[ | | | |cm| | ]|];
    rewrite ?dirty_noteCur_ConfigMap;
    destruct old as [[]|];
    apply DirtySet_eq; dirty_field.
Qed.

Lemma dirty_NotifyAll (events : list ChangeEvent) (c : k8scache) :
  dirty (NotifyAll events c)
  = dirty_union (dirty c) (collected (map classify events)).
Proof.
  revert c. induction events as [|e events IH]; intros c.
  - unfold dirty_union, collected; simpl.
    rewrite ?app_nil_r, orb_false_r. unfold dirty; simpl. reflexivity.
  - change (NotifyAll (e :: events) c)
      with (NotifyAll events (NotifyEvent c e)).
    rewrite IH, dirty_NotifyEvent, dirty_union_assoc.
    rewrite <- collected_cons. reflexivity.
Qed.

Ltac unfold_SyncNewObjects c :=
  let Hglobal := fresh "Hglobal" in
  let Htcp := fresh "Htcp" in
  unfold SyncNewObjects; cbn;
  destruct (newGlobalConfigMapData c) eqn:Hglobal; cbn;
  destruct (newTCPConfigMapData c) eqn:Htcp; cbn;
  rewrite ?Hglobal, ?Htcp.

(** [SyncNewObjects] empties the ingress, secret, endpoints and pod
    lists and lowers the resync flag. *)
Lemma SyncNewObjects_clears (c : k8scache) :
  GetDirtyIngresses (SyncNewObjects c) = ([], [], [])
  /\ GetDirtySecrets (SyncNewObjects c) = ([], [], [])
  /\ GetDirtyEndpoints (SyncNewObjects c) = []
  /\ GetDirtyPods (SyncNewObjects c) = []
  /\ NeedResync (SyncNewObjects c) = false
  /\ clear (SyncNewObjects c) = true.
Proof.
  unfold_SyncNewObjects c; repeat split; reflexivity.
Qed.

(** [SyncNewObjects] promotes the pending config maps: nothing stays
    pending, and a pending value has become the current one. *)
Lemma SyncNewObjects_promotes (c : k8scache) :
  newGlobalConfigMapData (SyncNewObjects c) = None
  /\ newTCPConfigMapData (SyncNewObjects c) = None
  /\ globalConfigMapData (SyncNewObjects c)
     = match newGlobalConfigMapData c with
       | Some data => Some data
       | None => globalConfigMapData c
       end
  /\ tcpConfigMapData (SyncNewObjects c)
     = match newTCPConfigMapData c with
       | Some data => Some data
       | None => tcpConfigMapData c
       end.
Proof.
  unfold_SyncNewObjects c; repeat split; reflexivity.
Qed.

(** [SyncNewObjects] has no assignment to the three service lists. *)
Lemma SyncNewObjects_services (c : k8scache) :
  GetDirtyServices (SyncNewObjects c) = GetDirtyServices c.
Proof.
  unfold_SyncNewObjects c; reflexivity.
Qed.

(** C1 (the code at the failing input): a service added before a sync is
    still in the add list after it, and after a second sync that follows
    with no [Notify] in between: the dirty lists are not all empty. *)
Theorem SyncNewObjects_leaves_services :
  GetDirtyServices
    (SyncNewObjects (Notify 0 None (Some (ObjService webService)) emptyCache))
  = ([], [], [webService])
  /\ GetDirtyServices
       (SyncNewObjects
          (SyncNewObjects
             (Notify 0 None (Some (ObjService webService)) emptyCache)))
     = ([], [], [webService]).
Proof. split; reflexivity. Qed.

(** X1: [SyncNewObjects] empties the ingress, secret, endpoints and pod
    lists, lowers the resync flag, re-enables the timer, leaves no config
    data pending and makes pending config data current; after a second
    [SyncNewObjects] right behind it those lists are empty and the flag
    is down as well. *)
Theorem SyncNewObjects_resets (c : k8scache) :
  GetDirtyIngresses (SyncNewObjects c) = ([], [], [])
  /\ GetDirtySecrets (SyncNewObjects c) = ([], [], [])
  /\ GetDirtyEndpoints (SyncNewObjects c) = []
  /\ GetDirtyPods (SyncNewObjects c) = []
  /\ NeedResync (SyncNewObjects c) = false
  /\ clear (SyncNewObjects c) = true
  /\ newGlobalConfigMapData (SyncNewObjects c) = None
  /\ newTCPConfigMapData (SyncNewObjects c) = None
  /\ globalConfigMapData (SyncNewObjects c)
     = match newGlobalConfigMapData c with
       | Some data => Some data
       | None => globalConfigMapData c
       end
  /\ tcpConfigMapData (SyncNewObjects c)
     = match newTCPConfigMapData c with
       | Some data => Some data
       | None => tcpConfigMapData c
       end
  /\ GetDirtyIngresses (SyncNewObjects (SyncNewObjects c)) = ([], [], [])
  /\ GetDirtySecrets (SyncNewObjects (SyncNewObjects c)) = ([], [], [])
  /\ GetDirtyEndpoints (SyncNewObjects (SyncNewObjects c)) = []
  /\ GetDirtyPods (SyncNewObjects (SyncNewObjects c)) = []
  /\ NeedResync (SyncNewObjects (SyncNewObjects c)) = false.
Proof.
  destruct (SyncNewObjects_clears c) as (Hing & Hsec & Hep & Hpod & Hre & Hcl).
  destruct (SyncNewObjects_promotes c) as (Hg & Ht & Hcur & Htcp).
  destruct (SyncNewObjects_clears (SyncNewObjects c))
    as (Hing' & Hsec' & Hep' & Hpod' & Hre' & _).
  repeat (split; [assumption|]). assumption.
Qed.

(** X2: a config map whose key is the global one becomes the pending
    global config data and nothing else: the current data and the dirty
    set are as before, until [SyncNewObjects] makes it current. *)
Theorem Notify_config_pending (now : Z) (old : option object) (cm : ConfigMap)
    (c : k8scache) :
  cm_Namespace cm +:+ "/" +:+ cm_Name cm = globalConfigMapKey c ->
  let c' := Notify now old (Some (ObjConfigMap cm)) c in
  GlobalConfig c' = (globalConfigMapData c, cm_Data cm)
  /\ dirty c' = dirty c
  /\ (forall data, cm_Data cm = Some data ->
        GlobalConfig (SyncNewObjects c') = (Some data, None)).
Proof.
  intros Hkey c'.
  assert (GlobalConfig c' = (globalConfigMapData c, cm_Data cm)) as Hpending.
  { subst c'. unfold Notify; cbv zeta.
    assert (forall x, GlobalConfig (armTimer now x) = GlobalConfig x) as ->
      by (intros x; unfold armTimer; destruct (clear x); reflexivity).
    destruct old as [[]|]; cbn [noteOld noteResync]; unfold noteCur;
      rewrite (bool_decide_eq_true_2 _ Hkey); reflexivity. }
  assert (dirty c' = dirty c) as Hdirty.
  { subst c'. unfold Notify; cbv zeta.
    rewrite dirty_armTimer, dirty_noteCur_ConfigMap.
    destruct old as [[]|]; reflexivity. }
  clearbody c'.
  split; [exact Hpending|]. split; [exact Hdirty|].
  intros data Hdata. unfold GlobalConfig in *.
  injection Hpending as Hcur Hnew.
  destruct (SyncNewObjects_promotes c') as (Hg & _ & Hcur' & _).
  rewrite Hg, Hcur', Hnew, Hdata. reflexivity.
Qed.

Lemma Notify_config_pending_witness :
  GlobalConfig (Notify 0 None (Some (ObjConfigMap globalConfigMap)) emptyCache)
  = (None, cm_Data globalConfigMap)
  /\ GlobalConfig
       (SyncNewObjects
          (Notify 0 None (Some (ObjConfigMap globalConfigMap)) emptyCache))
     = (cm_Data globalConfigMap, None).
Proof.
  pose proof (Notify_config_pending 0 None globalConfigMap emptyCache eq_refl)
    as (Hpending & _ & Hsync).
  split; [exact Hpending | exact (Hsync _ eq_refl)].
Defined.

(** C3, as stated, fails for the kinds that have no delete list: the
    deletion of an endpoints object is an event with old present and new
    absent, and after [Notify] no dirty list holds the object. *)
Lemma Notify_endpoints_deletion_unrecorded :
  classify {| ev_time := 0; ev_old := Some (ObjEndpoints someEndpoints);
              ev_cur := None |}
  = Deleted (ObjEndpoints someEndpoints)
  /\ recorded (dirty (Notify 0 (Some (ObjEndpoints someEndpoints)) None
                        emptyCache)) = [].
Proof. split; reflexivity. Qed.

(** C3 (amended): after any sequence of [Notify] calls every dirty list
    is the list as the window found it followed by the window's events of
    its class and kind, in order, with no deduplication.  Both absent
    raises the resync flag; old present and new absent goes to the delete
    list of an ingress, service or secret (for a secret [DeleteSecret] is
    called with "namespace/name") and nowhere for other kinds; new present
    goes to the add list when old is absent and to the update list when
    old is present, for an ingress, service or secret, and to the one
    observed list for endpoints and pods.  A cache just created, and for
    the ingress, secret, endpoints and pod lists a cache just synced,
    holds exactly the window's events; an object added and then deleted
    in the window is in its add list and in its delete list. *)
Theorem NotifyAll_collects (events : list ChangeEvent) (c : k8scache) :
  dirty (NotifyAll events c)
  = dirty_union (dirty c) (collected (map classify events))
  /\ (forall podNamespace cfg cli lst,
        dirty (NotifyAll events
                 (createCache podNamespace cfg cli lst
                    {| ctl_DeleteSecret := [] |}))
        = collected (map classify events))
  /\ (let d := dirty (NotifyAll events (SyncNewObjects c)) in
      let w := collected (map classify events) in
      d_delIngresses d = d_delIngresses w
      /\ d_updIngresses d = d_updIngresses w
      /\ d_addIngresses d = d_addIngresses w
      /\ d_delSecrets d = d_delSecrets w
      /\ d_updSecrets d = d_updSecrets w
      /\ d_addSecrets d = d_addSecrets w
      /\ d_newEndpoints d = d_newEndpoints w
      /\ d_newPods d = d_newPods w
      /\ d_needResync d = d_needResync w)
  /\ (forall t1 t2 ing svc secret,
        let window (o : object) :=
          dirty (NotifyAll [ {| ev_time := t1; ev_old := None; ev_cur := Some o |};
                             {| ev_time := t2; ev_old := Some o; ev_cur := None |} ]
                   emptyCache) in
        d_addIngresses (window (ObjIngress ing)) = [ing]
        /\ d_delIngresses (window (ObjIngress ing)) = [ing]
        /\ d_addServices (window (ObjService svc)) = [svc]
        /\ d_delServices (window (ObjService svc)) = [svc]
        /\ d_addSecrets (window (ObjSecret secret)) = [secret]
        /\ d_delSecrets (window (ObjSecret secret)) = [secret]).
Proof.
  split; [apply dirty_NotifyAll|].
  split; [|split].
  - intros. rewrite dirty_NotifyAll. reflexivity.
  - cbv zeta. rewrite dirty_NotifyAll.
    unfold dirty, dirty_union, GetDirtyIngresses, GetDirtySecrets,
      GetDirtyEndpoints, GetDirtyPods, NeedResync.
    unfold_SyncNewObjects c; repeat split; reflexivity.
  - intros. subst window. cbv beta. rewrite !dirty_NotifyAll.
    repeat split; reflexivity.
Qed.

(** ** The debounce timer *)

Lemma noteCur_timer (old cur : option object) (c : k8scache) :
  clear (noteCur old cur c) = clear c
  /\ timers (noteCur old cur c) = timers c.
Proof.
  unfold noteCur. destruct cur as [[ | | | |cm| | ]|], old;
    try (split; reflexivity).
  all: destruct (bool_decide _); [|destruct (bool_decide _)];
    split; reflexivity.
Qed.

Lemma noteOld_timer (old cur : option object) (c : k8scache) :
  clear (noteOld old cur c) = clear c
  /\ timers (noteOld old cur c) = timers c.
Proof. destruct old as [[]|], cur; split; reflexivity. Qed.

Lemma noteResync_timer (old cur : option object) (c : k8scache) :
  clear (noteResync old cur c) = clear c
  /\ timers (noteResync old cur c) = timers c.
Proof. destruct old, cur; split; reflexivity. Qed.

Lemma Notify_timer (c : k8scache) (e : ChangeEvent) :
  clear (NotifyEvent c e) = false
  /\ timers (NotifyEvent c e)
     = if clear c then timers c ++ [ev_time e + 500] else timers c.
Proof.
  destruct e as [now old cur]. unfold NotifyEvent, Notify. cbv zeta.
  cbn [ev_time ev_old ev_cur].
  set (c3 := noteCur old cur (noteOld old cur (noteResync old cur c))).
  assert (clear c3 = clear c /\ timers c3 = timers c) as [Hclear Htimers].
  { subst c3.
    destruct (noteCur_timer old cur (noteOld old cur (noteResync old cur c)))
      as [-> ->].
    destruct (noteOld_timer old cur (noteResync old cur c)) as [-> ->].
    apply noteResync_timer. }
  unfold armTimer. rewrite <- Hclear, <- Htimers.
  destruct (clear c3); split; reflexivity.
Qed.

(** Once a call has been made, further calls arm nothing. *)
Lemma NotifyAll_armed (events : list ChangeEvent) (c : k8scache) :
  clear c = false ->
  clear (NotifyAll events c) = false
  /\ timers (NotifyAll events c) = timers c.
Proof.
  revert c. induction events as [|e events IH]; intros c Hc; [easy|].
  change (NotifyAll (e :: events) c) with (NotifyAll events (NotifyEvent c e)).
  destruct (Notify_timer c e) as [Hclear Htimers].
  destruct (IH _ Hclear) as [IH1 IH2].
  split; [exact IH1|]. rewrite IH2, Htimers, Hc. reflexivity.
Qed.

Lemma NotifyAll_first_arms (e : ChangeEvent) (events : list ChangeEvent)
    (c : k8scache) :
  clear c = true ->
  timers (NotifyAll (e :: events) c) = timers c ++ [ev_time e + 500].
Proof.
  intros Hc.
  change (NotifyAll (e :: events) c) with (NotifyAll events (NotifyEvent c e)).
  destruct (Notify_timer c e) as [Hclear Htimers].
  destruct (NotifyAll_armed events _ Hclear) as [_ ->].
  rewrite Htimers, Hc. reflexivity.
Qed.

(** C2, as stated, fails on the time: after the three events one timer
    is armed, so the consumer is notified once, but its deadline is 500,
    which is not within any tolerance below 490 ms of 990. *)
Lemma burst_fires_at_500_not_990 :
  timers (NotifyAll burst emptyCache) = [500]
  /\ (forall tolerance, tolerance < 490 ->
        ~ firesOnceNear 990 tolerance (NotifyAll burst emptyCache)).
Proof.
  split; [reflexivity|].
  intros tolerance Htol [t [Ht Hnear]].
  change (timers (NotifyAll burst emptyCache)) with [500] in Ht.
  injection Ht as <-. simpl in Hnear. lia.
Qed.

(** C2 (amended): in a window that opens with a synced or a new cache,
    the first [Notify] arms one timer of 500 ms and no later call arms
    another, so the consumer is notified exactly once, 500 ms after the
    first event: for events at 0, 100 and 490 ms, at 500 ms. *)
Theorem NotifyAll_arms_once (e : ChangeEvent) (events : list ChangeEvent)
    (c : k8scache) :
  timers (NotifyAll (e :: events) (SyncNewObjects c))
  = timers c ++ [ev_time e + 500]
  /\ (forall podNamespace cfg cli lst ctl,
        timers (NotifyAll (e :: events)
                  (createCache podNamespace cfg cli lst ctl))
        = [ev_time e + 500])
  /\ firesOnceNear 500 0 (NotifyAll burst emptyCache).
Proof.
  split; [|split].
  - rewrite NotifyAll_first_arms.
    + f_equal. unfold_SyncNewObjects c; reflexivity.
    + apply SyncNewObjects_clears.
  - intros. rewrite NotifyAll_first_arms; reflexivity.
  - exists 500. split; [reflexivity | simpl; lia].
Qed.

(** ** Stores *)

Section StoreFacts.
Context {A : Type} (key : A -> string * string).

Lemma store_get_key (ns n : string) (objs : list A) (o : A) :
  store_get key ns n objs = Some o -> key o = (ns, n).
Proof.
  unfold store_get. intros Hfind.
  apply find_some in Hfind as [_ Hkey].
  apply bool_decide_eq_true_1 in Hkey. exact Hkey.
Qed.

Lemma store_get_replace (ns n : string) (objs : list A) (o : A) :
  key o = (ns, n) ->
  is_Some (store_get key ns n objs) ->
  store_get key ns n (store_replace key o objs) = Some o.
Proof.
  intros Hkey. unfold store_get, store_replace. rewrite Hkey.
  induction objs as [|x objs IH]; simpl.
  - intros [? ?]; discriminate.
  - destruct (bool_decide (key x = (ns, n))) eqn:Hx; simpl.
    + intros _. rewrite Hkey, bool_decide_eq_true_2; reflexivity.
    + rewrite Hx. exact IH.
Qed.

Lemma store_get_append (ns n : string) (objs : list A) (o : A) :
  key o = (ns, n) ->
  store_get key ns n objs = None ->
  store_get key ns n (objs ++ [o]) = Some o.
Proof.
  intros Hkey. unfold store_get.
  induction objs as [|x objs IH]; simpl.
  - intros _. rewrite Hkey, bool_decide_eq_true_2; reflexivity.
  - destruct (bool_decide (key x = (ns, n))); [discriminate | exact IH].
Qed.
End StoreFacts.

(** ** Challenge tokens *)

Lemma GetToken_stored (c : k8scache) (ns n domain uri token : string)
    (cm : ConfigMap) (data : gmap string string) :
  SplitMetaNamespaceKey (acmeTokenConfigmapName c) = Ok (ns, n) ->
  store_get configMapKey ns n (configMapLister (listers c)) = Some cm ->
  cm_Data cm = Some data ->
  GetToken c domain uri
  = match data !! domain with
    | None => ""
    | Some entry =>
        if negb (strings.HasPrefix entry (uri +:+ "=")) then ""
        else strings.TrimPrefix entry (uri +:+ "=")
    end.
Proof.
  intros Hsplit Hget Hdata. unfold GetToken, GetConfigMap, lister_Get.
  rewrite Hsplit, Hget, Hdata. reflexivity.
Qed.

Lemma entry_token (uri token : string) :
  (if negb (strings.HasPrefix (uri +:+ "=" +:+ token) (uri +:+ "=")) then ""
   else strings.TrimPrefix (uri +:+ "=" +:+ token) (uri +:+ "=")) = token.
Proof.
  rewrite <- string_app_assoc, HasPrefix_app, TrimPrefix_app. reflexivity.
Qed.

(** C6, as stated, fails when the token config map is not yet in the
    lister's store: [SetToken] creates it at the API server and returns no
    error, and [GetToken], which reads the store, still answers "". *)
Lemma SetToken_then_GetToken_before_mirror :
  snd (SetToken emptyCache "example.com" "/acme/x" "tok1") = None
  /\ GetToken (fst (SetToken emptyCache "example.com" "/acme/x" "tok1"))
       "example.com" "/acme/x" = "".
Proof. split; reflexivity. Qed.

Lemma CreateOrUpdateConfigMap_frame (cm : ConfigMap) (c : k8scache) :
  listers (fst (CreateOrUpdateConfigMap cm c)) = listers c
  /\ acmeTokenConfigmapName (fst (CreateOrUpdateConfigMap cm c))
     = acmeTokenConfigmapName c.
Proof.
  unfold CreateOrUpdateConfigMap.
  destruct (lister_Get _ _ _ _);
    [destruct (api_Update _ _ _) | destruct (api_Create _ _ _)];
    split; reflexivity.
Qed.

(** What create-or-update leaves at the API server when the server
    accepts the call. *)
Lemma CreateOrUpdateConfigMap_stored (cm : ConfigMap) (c : k8scache) :
  agree configMapKey (cm_Namespace cm) (cm_Name cm)
    (configMapLister (listers c)) (cli_ConfigMaps (client c)) ->
  store_get configMapKey (cm_Namespace cm) (cm_Name cm)
    (cli_ConfigMaps (client (fst (CreateOrUpdateConfigMap cm c)))) = Some cm.
Proof.
  unfold agree, CreateOrUpdateConfigMap, lister_Get, api_Create, api_Update.
  change ((configMapKey cm).1) with (cm_Namespace cm).
  change ((configMapKey cm).2) with (cm_Name cm).
  destruct (store_get configMapKey (cm_Namespace cm) (cm_Name cm)
              (configMapLister (listers c))) as [l|] eqn:Hlister;
    destruct (store_get configMapKey (cm_Namespace cm) (cm_Name cm)
                (cli_ConfigMaps (client c))) as [r|] eqn:Hremote;
    intros [Hlr Hrl]; cbn.
  - apply (store_get_replace configMapKey); [reflexivity | rewrite Hremote; eauto].
  - destruct (Hlr (ex_intro _ l eq_refl)); discriminate.
  - destruct (Hrl (ex_intro _ r eq_refl)); discriminate.
  - apply (store_get_append configMapKey); [reflexivity | exact Hremote].
Qed.

Lemma tokenConfigMap_key (c : k8scache) (ns n domain uri token : string) :
  configMapKey
    (tokenConfigMap
       (lister_Get configMapKey (configMapLister (listers c)) ns n)
       ns n domain uri token) = (ns, n).
Proof.
  unfold lister_Get.
  destruct (store_get configMapKey ns n (configMapLister (listers c)))
    as [cm|] eqn:Hget; [|reflexivity].
  apply store_get_key in Hget. exact Hget.
Qed.

Lemma tokenConfigMap_entry (found : result ConfigMap)
    (ns n domain uri token : string) (data : gmap string string) :
  cm_Data (tokenConfigMap found ns n domain uri token) = Some data ->
  data !! domain
  = if bool_decide (token = "") then None else Some (uri +:+ "=" +:+ token).
Proof.
  unfold tokenConfigMap; cbn. intros [= <-].
  destruct (bool_decide (token = "")); cbn.
  - apply lookup_delete_eq.
  - apply lookup_insert_eq.
Qed.

Lemma SetToken_unfold (c : k8scache) (ns n domain uri token : string) :
  SplitMetaNamespaceKey (acmeTokenConfigmapName c) = Ok (ns, n) ->
  let found := lister_Get configMapKey (configMapLister (listers c)) ns n in
  let config := tokenConfigMap found ns n domain uri token in
  SetToken c domain uri token
  = CreateOrUpdateConfigMap config
      match found with
      | Ok _ =>
          set_listers
            {| secretLister := secretLister (listers c);
               configMapLister :=
                 store_replace configMapKey config (configMapLister (listers c));
               podLister := podLister (listers c) |} c
      | Err _ => c
      end.
Proof.
  intros Hsplit. cbv zeta. unfold SetToken. rewrite Hsplit.
  unfold tokenConfigMap.
  destruct (lister_Get configMapKey (configMapLister (listers c)) ns n);
    reflexivity.
Qed.

(** Right after [SetToken], whatever it returned: a config map that was
    in the lister's store holds the new entry there. *)
Lemma SetToken_lister (c : k8scache) (ns n domain uri token : string)
    (cm : ConfigMap) :
  SplitMetaNamespaceKey (acmeTokenConfigmapName c) = Ok (ns, n) ->
  store_get configMapKey ns n (configMapLister (listers c)) = Some cm ->
  store_get configMapKey ns n
    (configMapLister (listers (fst (SetToken c domain uri token))))
  = Some (tokenConfigMap (Ok cm) ns n domain uri token).
Proof.
  intros Hsplit Hget.
  rewrite (SetToken_unfold c ns n domain uri token Hsplit).
  rewrite (proj1 (CreateOrUpdateConfigMap_frame _ _)).
  pose proof (tokenConfigMap_key c ns n domain uri token) as Hkey.
  unfold lister_Get in *. rewrite Hget in *. cbn.
  apply store_get_replace; [exact Hkey | rewrite Hget; eauto].
Qed.

Lemma SetToken_lister_absent (c : k8scache) (ns n domain uri token : string) :
  SplitMetaNamespaceKey (acmeTokenConfigmapName c) = Ok (ns, n) ->
  store_get configMapKey ns n (configMapLister (listers c)) = None ->
  listers (fst (SetToken c domain uri token)) = listers c.
Proof.
  intros Hsplit Hget.
  rewrite (SetToken_unfold c ns n domain uri token Hsplit).
  rewrite (proj1 (CreateOrUpdateConfigMap_frame _ _)).
  unfold lister_Get. rewrite Hget. reflexivity.
Qed.

(** After a [SetToken] whose write the API server accepted, the server
    holds the config map with the new entry. *)
Lemma SetToken_remote (c : k8scache) (ns n domain uri token : string) :
  SplitMetaNamespaceKey (acmeTokenConfigmapName c) = Ok (ns, n) ->
  agree configMapKey ns n
    (configMapLister (listers c)) (cli_ConfigMaps (client c)) ->
  store_get configMapKey ns n
    (cli_ConfigMaps (client (fst (SetToken c domain uri token))))
  = Some (tokenConfigMap
            (lister_Get configMapKey (configMapLister (listers c)) ns n)
            ns n domain uri token).
Proof.
  intros Hsplit Hagree.
  rewrite (SetToken_unfold c ns n domain uri token Hsplit).
  pose proof (tokenConfigMap_key c ns n domain uri token) as Hkey.
  set (config := tokenConfigMap _ _ _ _ _ _) in *.
  pose proof (f_equal fst Hkey) as Hkns. pose proof (f_equal snd Hkey) as Hkn.
  cbn [fst snd configMapKey] in Hkns, Hkn.
  rewrite <- Hkns at 1. rewrite <- Hkn at 1.
  apply CreateOrUpdateConfigMap_stored. rewrite Hkns, Hkn.
  unfold agree in *. unfold lister_Get.
  destruct (store_get configMapKey ns n (configMapLister (listers c)))
    as [l|] eqn:Hl; [|cbn; rewrite Hl; exact Hagree].
  cbn [listers set_listers configMapLister client set_client].
  rewrite (store_get_replace configMapKey ns n _ config Hkey)
    by (rewrite Hl; eauto).
  split; [intros _; apply Hagree; eauto | eauto].
Qed.

Lemma SetToken_name (c : k8scache) (domain uri token : string) :
  acmeTokenConfigmapName (fst (SetToken c domain uri token))
  = acmeTokenConfigmapName c.
Proof.
  unfold SetToken.
  destruct (SplitMetaNamespaceKey (acmeTokenConfigmapName c)) as [[ns n]|e];
    [|reflexivity].
  rewrite (proj2 (CreateOrUpdateConfigMap_frame _ _)).
  destruct (lister_Get _ _ _ _); reflexivity.
Qed.

Lemma GetToken_written (c c2 : k8scache) (found : result ConfigMap)
    (ns n domain uri token : string) :
  SplitMetaNamespaceKey (acmeTokenConfigmapName c) = Ok (ns, n) ->
  acmeTokenConfigmapName c2 = acmeTokenConfigmapName c ->
  store_get configMapKey ns n (configMapLister (listers c2))
  = Some (tokenConfigMap found ns n domain uri token) ->
  GetToken c2 domain uri = if bool_decide (token = "") then "" else token.
Proof.
  intros Hsplit Hname Hget. rewrite <- Hname in Hsplit.
  rewrite (GetToken_stored c2 ns n domain uri token _ _ Hsplit Hget eq_refl).
  rewrite (tokenConfigMap_entry found ns n domain uri token _ eq_refl).
  destruct (bool_decide (token = "")); [reflexivity | apply entry_token].
Qed.

Lemma SetToken_synced (c : k8scache) (ns n domain uri token : string) :
  SplitMetaNamespaceKey (acmeTokenConfigmapName c) = Ok (ns, n) ->
  agree configMapKey ns n
    (configMapLister (listers c)) (cli_ConfigMaps (client c)) ->
  GetToken (informerSync (fst (SetToken c domain uri token))) domain uri
  = if bool_decide (token = "") then "" else token.
Proof.
  intros Hsplit Hagree.
  eapply (GetToken_written c _ _ ns n); [exact Hsplit | | ].
  - change (acmeTokenConfigmapName
              (informerSync (fst (SetToken c domain uri token))))
      with (acmeTokenConfigmapName (fst (SetToken c domain uri token))).
    apply SetToken_name.
  - apply (SetToken_remote c ns n domain uri token Hsplit Hagree).
Qed.

Lemma SetToken_in_place (c : k8scache) (domain uri token : string)
    (cm : ConfigMap) :
  GetConfigMap c (acmeTokenConfigmapName c) = Ok cm ->
  GetToken (fst (SetToken c domain uri token)) domain uri
  = if bool_decide (token = "") then "" else token.
Proof.
  unfold GetConfigMap, lister_Get.
  destruct (SplitMetaNamespaceKey (acmeTokenConfigmapName c))
    as [[ns n]|e] eqn:Hsplit; [|discriminate].
  destruct (store_get configMapKey ns n (configMapLister (listers c)))
    as [cm0|] eqn:Hget; [|discriminate].
  intros _.
  eapply (GetToken_written c _ _ ns n); [exact Hsplit | apply SetToken_name | ].
  apply (SetToken_lister c ns n domain uri token cm0 Hsplit Hget).
Qed.

Lemma GetToken_no_config (c : k8scache) (domain uri : string) (e : error) :
  GetConfigMap c (acmeTokenConfigmapName c) = Err e ->
  GetToken c domain uri = "".
Proof. unfold GetToken. intros ->. reflexivity. Qed.

Lemma SetToken_removed (c : k8scache) (domain uri : string) :
  GetToken (fst (SetToken c domain uri "")) domain uri = "".
Proof.
  destruct (GetConfigMap c (acmeTokenConfigmapName c)) as [cm|e] eqn:Hcm.
  - apply (SetToken_in_place c domain uri "" cm Hcm).
  - revert Hcm. unfold GetConfigMap, lister_Get.
    destruct (SplitMetaNamespaceKey (acmeTokenConfigmapName c))
      as [[ns n]|e'] eqn:Hsplit.
    + destruct (store_get configMapKey ns n (configMapLister (listers c)))
        as [cm0|] eqn:Hget; [discriminate|]. intros _.
      unfold GetToken, GetConfigMap, lister_Get.
      rewrite SetToken_name, Hsplit.
      rewrite (SetToken_lister_absent c ns n domain uri "" Hsplit Hget).
      rewrite Hget. reflexivity.
    + intros _. unfold SetToken. rewrite Hsplit. cbn.
      unfold GetToken, GetConfigMap. rewrite Hsplit. reflexivity.
Qed.

(** C6 (amended): a [SetToken] with a non-empty token is read back by
    [GetToken] once the lister's store holds what was written: at once
    when the token config map was in the store (the write goes through
    the lister's pointer), and otherwise after the informer has
    delivered what the API server holds, when the server accepted the
    write, that is when the lister and the server agreed on whether the
    config map existed.  [SetToken] with an empty token makes the next
    [GetToken] answer "", and so does the one after the informer has
    delivered an accepted write.  [GetToken] has no error result: a
    missing config map, a missing domain entry and an entry that does
    not start with uri + "=" all answer "". *)
Theorem SetToken_GetToken (c : k8scache) (domain uri token : string) :
  (token <> "" ->
     (forall ns n,
        SplitMetaNamespaceKey (acmeTokenConfigmapName c) = Ok (ns, n) ->
        agree configMapKey ns n
          (configMapLister (listers c)) (cli_ConfigMaps (client c)) ->
        GetToken (informerSync (fst (SetToken c domain uri token))) domain uri
        = token)
     /\ (forall cm, GetConfigMap c (acmeTokenConfigmapName c) = Ok cm ->
           GetToken (fst (SetToken c domain uri token)) domain uri = token))
  /\ GetToken (fst (SetToken c domain uri "")) domain uri = ""
  /\ (forall ns n,
        SplitMetaNamespaceKey (acmeTokenConfigmapName c) = Ok (ns, n) ->
        agree configMapKey ns n
          (configMapLister (listers c)) (cli_ConfigMaps (client c)) ->
        GetToken (informerSync (fst (SetToken c domain uri ""))) domain uri
        = "")
  /\ (forall e, GetConfigMap c (acmeTokenConfigmapName c) = Err e ->
        GetToken c domain uri = "")
  /\ (forall cm, GetConfigMap c (acmeTokenConfigmapName c) = Ok cm ->
        default ∅ (cm_Data cm) !! domain = None ->
        GetToken c domain uri = "")
  /\ (forall cm entry, GetConfigMap c (acmeTokenConfigmapName c) = Ok cm ->
        default ∅ (cm_Data cm) !! domain = Some entry ->
        strings.HasPrefix entry (uri +:+ "=") = false ->
        GetToken c domain uri = "").
Proof.
  split; [intros Htoken; split | repeat split].
  - intros ns n Hsplit Hagree.
    rewrite (SetToken_synced c ns n domain uri token Hsplit Hagree).
    rewrite (bool_decide_eq_false_2 (token = "") Htoken). reflexivity.
  - intros cm Hcm. rewrite (SetToken_in_place c domain uri token cm Hcm).
    rewrite (bool_decide_eq_false_2 (token = "") Htoken). reflexivity.
  - apply SetToken_removed.
  - intros ns n Hsplit Hagree.
    apply (SetToken_synced c ns n domain uri "" Hsplit Hagree).
  - intros e. apply GetToken_no_config.
  - intros cm Hcm Hentry. unfold GetToken. rewrite Hcm, Hentry. reflexivity.
  - intros cm entry Hcm Hentry Hprefix. unfold GetToken.
    rewrite Hcm, Hentry, Hprefix. reflexivity.
Qed.

Lemma SetToken_GetToken_witness :
  GetToken
    (informerSync (fst (SetToken emptyCache "example.com" "/acme/x" "tok1")))
    "example.com" "/acme/x" = "tok1".
Proof.
  apply (proj1 (proj1 (SetToken_GetToken emptyCache "example.com" "/acme/x" "tok1")
                  ltac:(discriminate))
           "ingress" "acme-validation-tokens" eq_refl).
  split; intros Hsome; exact Hsome.
Defined.

(** ** The ACME account key and certificate *)

(** C4, as stated, fails when the secret is there without the key entry:
    key generation would succeed, yet [GetKey] returns an error and writes
    nothing. *)
Lemma GetKey_entry_absent_not_generated :
  @rsa_GenerateKey ToyCrypto.lib 2048 <> None
  /\ @GetKey ToyCrypto.lib (cacheWithSecret (accountSecret ∅))
     = (cacheWithSecret (accountSecret ∅),
        Err (ErrSecretHasNoKey "ingress/acme-private-key")).
Proof. split; [discriminate | reflexivity]. Qed.

Section Acme.
Context `{CryptoLib}.

Lemma readKey_present (c : k8scache) (secret : Secret) :
  GetSecret c (acmeSecretKeyName c) = Ok secret ->
  GetKey c
  = (c, match sec_Data secret !! TLSPrivateKeyKey with
        | None => Err (ErrSecretHasNoKey (acmeSecretKeyName c))
        | Some pemKey =>
            match pem_Decode pemKey with
            | None => Err (ErrInvalidPem (acmeSecretKeyName c))
            | Some derBlock =>
                match x509_ParsePKCS1PrivateKey derBlock with
                | None => Err ErrParsePrivateKey
                | Some key => Ok key
                end
            end
        end).
Proof.
  intros Hsecret. unfold GetKey, readKey. rewrite Hsecret.
  destruct (sec_Data secret !! TLSPrivateKeyKey) as [pemKey|]; [|reflexivity].
  destruct (pem_Decode pemKey) as [der|]; [|reflexivity].
  destruct (x509_ParsePKCS1PrivateKey der); reflexivity.
Qed.

Lemma GetSecret_absent (c : k8scache) (secretName ns n : string) (e : error) :
  GetSecret c secretName = Err e ->
  SplitMetaNamespaceKey secretName = Ok (ns, n) ->
  store_get secretKey ns n (secretLister (listers c)) = None.
Proof.
  unfold GetSecret, lister_Get. intros Hget Hsplit. rewrite Hsplit in Hget.
  destruct (store_get secretKey ns n (secretLister (listers c)));
    [discriminate | reflexivity].
Qed.

(** C4 (amended): [GetKey] returns the stored key when the secret is in
    the lister's store and its "tls.key" entry decodes and parses.  It
    generates a key only when the lookup of the secret fails: then it
    asks for 2048 bits and, when the API server holds no secret under
    that name, so that it accepts the create, the server holds the
    secret with the PEM of the new key under "tls.key" afterwards and
    the key is returned.  When the secret is there, nothing is
    generated or written: a missing "tls.key" entry, an entry that is
    not PEM and a key that does not parse are errors. *)
Theorem GetKey_cases (c : k8scache) :
  (forall secret pemKey derBlock key,
      GetSecret c (acmeSecretKeyName c) = Ok secret ->
      sec_Data secret !! TLSPrivateKeyKey = Some pemKey ->
      pem_Decode pemKey = Some derBlock ->
      x509_ParsePKCS1PrivateKey derBlock = Some key ->
      GetKey c = (c, Ok key))
  /\ (forall e ns n key,
        GetSecret c (acmeSecretKeyName c) = Err e ->
        SplitMetaNamespaceKey (acmeSecretKeyName c) = Ok (ns, n) ->
        rsa_GenerateKey 2048 = Some key ->
        store_get secretKey ns n (cli_Secrets (client c)) = None ->
        snd (GetKey c) = Ok key
        /\ store_get secretKey ns n (cli_Secrets (client (fst (GetKey c))))
           = Some {| sec_Namespace := ns; sec_Name := n;
                     sec_Type := SecretTypeOpaque;
                     sec_Data :=
                       {[ TLSPrivateKeyKey :=
                            pem_EncodeToMemory "RSA PRIVATE KEY"
                              (x509_MarshalPKCS1PrivateKey key) ]} |})
  /\ (forall secret,
        GetSecret c (acmeSecretKeyName c) = Ok secret ->
        fst (GetKey c) = c
        /\ (sec_Data secret !! TLSPrivateKeyKey = None ->
            snd (GetKey c) = Err (ErrSecretHasNoKey (acmeSecretKeyName c)))
        /\ (forall pemKey,
              sec_Data secret !! TLSPrivateKeyKey = Some pemKey ->
              pem_Decode pemKey = None ->
              snd (GetKey c) = Err (ErrInvalidPem (acmeSecretKeyName c)))
        /\ (forall pemKey derBlock,
              sec_Data secret !! TLSPrivateKeyKey = Some pemKey ->
              pem_Decode pemKey = Some derBlock ->
              x509_ParsePKCS1PrivateKey derBlock = None ->
              snd (GetKey c) = Err ErrParsePrivateKey)).
Proof.
  split; [|split].
  - intros secret pemKey der key Hsecret Hentry Hpem Hparse.
    rewrite (readKey_present c secret Hsecret), Hentry, Hpem, Hparse.
    reflexivity.
  - intros e ns n key Hsecret Hsplit Hgen Hremote.
    pose proof (GetSecret_absent c _ ns n e Hsecret Hsplit) as Hlister.
    unfold GetKey, readKey. rewrite Hsecret, Hsplit, Hgen.
    unfold CreateOrUpdateSecret, lister_Get, api_Create; cbn.
    rewrite Hlister, Hremote; cbn. split; [reflexivity|].
    apply (store_get_append secretKey); [reflexivity | exact Hremote].
  - intros secret Hsecret. rewrite (readKey_present c secret Hsecret); cbn.
    split; [reflexivity|]. split; [|split].
    + intros ->. reflexivity.
    + intros pemKey -> ->. reflexivity.
    + intros pemKey der -> -> ->. reflexivity.
Qed.
End Acme.

Lemma GetKey_cases_witness :
  @GetKey ToyCrypto.lib (cacheWithSecret (accountSecret {[ TLSPrivateKeyKey := toyKeyPem ]}))
  = (cacheWithSecret (accountSecret {[ TLSPrivateKeyKey := toyKeyPem ]}),
     Ok [Byte.x30; Byte.x82])
  /\ snd (@GetKey ToyCrypto.lib emptyCache) = Ok [Byte.x01; Byte.x00; Byte.x01].
Proof.
  split.
  - apply (proj1 (@GetKey_cases ToyCrypto.lib _)
             (accountSecret {[ TLSPrivateKeyKey := toyKeyPem ]})
             toyKeyPem [Byte.x30; Byte.x82]); reflexivity.
  - apply (proj1 (proj2 (@GetKey_cases ToyCrypto.lib emptyCache))
             (ErrNotFound "ingress" "acme-private-key")
             "ingress" "acme-private-key"); reflexivity.
Defined.

Section IssuedCertificate.
Context `{CryptoLib}.

(** C8: [GetTLSSecretContent] answers a certificate and key exactly
    when the secret is found, has both the "tls.crt" and the "tls.key"
    entry, both decode as PEM and both parse; when the secret is
    missing, an entry is missing, a block does not decode or a parse
    fails it answers nil. It has no error result. *)
Theorem GetTLSSecretContent_nil_unless_all_parse
    (c : k8scache) (secretName : string) :
  (forall tls,
      GetTLSSecretContent c secretName = Some tls
      <-> exists secret pemCrt pemKey derCrt derKey,
            GetSecret c secretName = Ok secret
            /\ sec_Data secret !! TLSCertKey = Some pemCrt
            /\ sec_Data secret !! TLSPrivateKeyKey = Some pemKey
            /\ pem_Decode pemCrt = Some derCrt
            /\ pem_Decode pemKey = Some derKey
            /\ x509_ParseCertificate derCrt = Some (Crt tls)
            /\ x509_ParsePKCS1PrivateKey derKey = Some (Key tls))
  /\ (forall e, GetSecret c secretName = Err e ->
        GetTLSSecretContent c secretName = None)
  /\ (forall secret,
        GetSecret c secretName = Ok secret ->
        sec_Data secret !! TLSCertKey = None
        \/ sec_Data secret !! TLSPrivateKeyKey = None ->
        GetTLSSecretContent c secretName = None)
  /\ (forall secret pemCrt pemKey,
        GetSecret c secretName = Ok secret ->
        sec_Data secret !! TLSCertKey = Some pemCrt ->
        sec_Data secret !! TLSPrivateKeyKey = Some pemKey ->
        pem_Decode pemCrt = None \/ pem_Decode pemKey = None ->
        GetTLSSecretContent c secretName = None)
  /\ (forall secret pemCrt pemKey derCrt derKey,
        GetSecret c secretName = Ok secret ->
        sec_Data secret !! TLSCertKey = Some pemCrt ->
        sec_Data secret !! TLSPrivateKeyKey = Some pemKey ->
        pem_Decode pemCrt = Some derCrt ->
        pem_Decode pemKey = Some derKey ->
        x509_ParseCertificate derCrt = None
        \/ x509_ParsePKCS1PrivateKey derKey = None ->
        GetTLSSecretContent c secretName = None).
Proof.
  unfold GetTLSSecretContent.
  split; [|repeat split].
  - intros tls. split.
    + destruct (GetSecret c secretName) as [secret|e]; [|discriminate].
      destruct (sec_Data secret !! TLSCertKey) as [pemCrt|] eqn:HpemCrt;
        [|discriminate].
      destruct (sec_Data secret !! TLSPrivateKeyKey) as [pemKey|] eqn:HpemKey;
        [|discriminate].
      destruct (pem_Decode pemCrt) as [derCrt|] eqn:HderCrt; [|discriminate].
      destruct (pem_Decode pemKey) as [derKey|] eqn:HderKey; [|discriminate].
      destruct (x509_ParseCertificate derCrt) as [crt|] eqn:Hcrt;
        [|discriminate].
      destruct (x509_ParsePKCS1PrivateKey derKey) as [key|] eqn:Hkey;
        [|discriminate].
      intros [= <-]. exists secret, pemCrt, pemKey, derCrt, derKey.
      repeat split; first [reflexivity | assumption].
    + intros (secret & pemCrt & pemKey & derCrt & derKey
              & -> & -> & -> & -> & -> & -> & ->).
      destruct tls; reflexivity.
  - intros e ->. reflexivity.
  - intros secret -> [-> | ->]; [reflexivity|].
    destruct (sec_Data secret !! TLSCertKey); reflexivity.
  - intros secret pemCrt pemKey -> -> -> [-> | ->]; [reflexivity|].
    destruct (pem_Decode pemCrt); reflexivity.
  - intros secret pemCrt pemKey derCrt derKey -> -> -> -> -> [-> | ->];
      [reflexivity|].
    destruct (x509_ParseCertificate derCrt); reflexivity.
Qed.
End IssuedCertificate.

Lemma GetTLSSecretContent_witness :
  @GetTLSSecretContent ToyCrypto.lib (cacheWithSecret issuedSecret)
    "ingress/acme-private-key"
  = Some (@Build_TLSSecret ToyCrypto.lib [Byte.x30; Byte.x83] [Byte.x30; Byte.x82])
  /\ @GetTLSSecretContent ToyCrypto.lib emptyCache "ingress/acme-private-key"
     = None.
Proof.
  split.
  - apply (proj1 (@GetTLSSecretContent_nil_unless_all_parse ToyCrypto.lib
                    (cacheWithSecret issuedSecret) "ingress/acme-private-key")).
    exists issuedSecret, toyCrtPem, toyKeyPem,
      [Byte.x30; Byte.x83], [Byte.x30; Byte.x82].
    repeat split; reflexivity.
  - apply (proj1 (proj2 (@GetTLSSecretContent_nil_unless_all_parse ToyCrypto.lib
                           emptyCache "ingress/acme-private-key"))
             (ErrNotFound "ingress" "acme-private-key")).
    reflexivity.
Defined.

(** ** Terminating pods *)




Lemma filter_twice {A : Type} (f g : A -> bool) (l : list A) :
  List.filter f (List.filter g l) = List.filter (fun x => g x && f x) l.
Proof.
  induction l as [|x l IH]; [reflexivity|]. cbn.
  destruct (g x); cbn; [destruct (f x)|]; rewrite IH; reflexivity.
Qed.

Section TerminatingPods.
Context `{LabelsLib}.



(** C10: for a service with an empty selector map the selector string
    is empty; with the selector it parses to accepting every label set
    (the empty selector), no pod fails the selector check and the
    result is every pod of the service's namespace that is terminating:
    deletion timestamp set, reason not "NodeLost", address not empty. *)
Theorem GetTerminatingPods_empty_selector (c : k8scache) (service : Service)
    (l : Selector) :
  svc_Selector service = ∅ ->
  labels_Parse "" = Some l ->
  (forall labels, Matches l labels = true) ->
  selectorString service = ""
  /\ (forall pod, selects (svc_Selector service) (pod_Labels pod))
  /\ GetTerminatingPods c service
     = Ok (List.filter
             (fun pod =>
                bool_decide (pod_Namespace pod = svc_Namespace service)
                && (bool_decide (pod_DeletionTimestamp pod <> None)
                    && negb (bool_decide (pod_Reason pod = "NodeLost"))
                    && negb (bool_decide (pod_PodIP pod = ""))))
             (podLister (listers c))).
Proof.
  intros Hempty Hparse Hall.
  assert (selectorString service = "") as Hstring.
  { unfold selectorString. rewrite Hempty, map_to_list_empty. reflexivity. }
  split; [exact Hstring|]. split.
  - intros pod k v. rewrite Hempty, lookup_empty. discriminate.
  - unfold GetTerminatingPods, podLister_List. rewrite Hstring, Hparse.
    f_equal. rewrite filter_twice. apply filter_ext. intros pod.
    rewrite Hall, andb_true_r. unfold isTerminatingPod.
    rewrite Hempty, map_to_list_empty. cbn [forallb negb].
    repeat case_bool_decide; cbn; try reflexivity; congruence.
Qed.
End TerminatingPods.


Lemma GetTerminatingPods_empty_selector_witness :
  @GetTerminatingPods EqualitySelector.lib
    (cacheWithPods [podDraining; podNodeLost; podRunning; podOther])
    headlessService
  = Ok [podDraining; podOther].
Proof.
  rewrite (proj2 (proj2 (@GetTerminatingPods_empty_selector EqualitySelector.lib
                           (cacheWithPods
                              [podDraining; podNodeLost; podRunning; podOther])
                           headlessService [] eq_refl eq_refl
                           (fun _ => eq_refl)))).
  reflexivity.
Defined.

(** ** The resolver's callers *)

Lemma buildSecretName_Ok_inv (c : k8scache) (d ref ns name : string) :
  buildSecretName c d ref = Ok (ns, name) ->
  exists ns0,
    SplitMetaNamespaceKey ref = Ok (ns0, name)
    /\ ((d = "" /\ ns = ns0)
        \/ (d <> "" /\ ns0 = "" /\ ns = d)
        \/ (d <> "" /\ ns0 <> "" /\ ns = ns0
            /\ (crossNS c = true \/ ns0 = d))).
Proof.
  unfold buildSecretName.
  destruct (SplitMetaNamespaceKey ref) as [[ns0 name0]|e]; [|discriminate].
  case_bool_decide as Hd; [intros [= <- <-]; eauto 10|].
  case_bool_decide as Hns0; [intros [= <- <-]; eauto 10|].
  destruct (crossNS c) eqn:Hcross; cbn; [intros [= <- <-]; eauto 10|].
  case_bool_decide as Hsame; [intros [= <- <-]; eauto 10 | discriminate].
Qed.

Lemma buildSecretName_denied (c : k8scache) (d ns name : string) :
  crossNS c = false ->
  d <> "" -> ns <> "" -> ns <> d ->
  strings.ContainsByte ns slash = false ->
  strings.ContainsByte name slash = false ->
  buildSecretName c d (ns +:+ "/" +:+ name)
  = Err (ErrCrossNamespace (ns +:+ "/" +:+ name) d).
Proof.
  intros Hcross Hd Hns Hne Hs1 Hs2. unfold buildSecretName.
  rewrite (SplitMetaNamespaceKey_namespaced _ _ Hs1 Hs2), Hcross.
  rewrite (bool_decide_eq_false_2 _ Hd), (bool_decide_eq_false_2 _ Hns),
    (bool_decide_eq_false_2 _ Hne).
  reflexivity.
Qed.

(** X3: with cross-namespace reading off and a non-empty default
    namespace, whatever [buildSecretName] resolves lies in the default
    namespace; a name without a slash resolves to the default namespace
    under that name; and the only errors are the key-format error and
    the cross-namespace error. *)
Theorem buildSecretName_stays_in_default (c : k8scache) (d ref : string) :
  crossNS c = false ->
  d <> "" ->
  (forall ns name, buildSecretName c d ref = Ok (ns, name) -> ns = d)
  /\ (strings.ContainsByte ref slash = false ->
      buildSecretName c d ref = Ok (d, ref))
  /\ (forall e, buildSecretName c d ref = Err e ->
        e = ErrKeyFormat ref \/ e = ErrCrossNamespace ref d).
Proof.
  intros Hcross Hd. split; [|split].
  - intros ns name Hok.
    destruct (buildSecretName_Ok_inv c d ref ns name Hok)
      as (ns0 & _ & [[Hd' _] | [(_ & _ & Hns) | (_ & _ & Hns & Hor)]]).
    + contradiction.
    + exact Hns.
    + destruct Hor as [Hc | Hsame]; congruence.
  - intros Hbare. unfold buildSecretName.
    rewrite (SplitMetaNamespaceKey_name _ Hbare).
    rewrite (bool_decide_eq_false_2 _ Hd). reflexivity.
  - intros e. unfold buildSecretName, SplitMetaNamespaceKey.
    destruct (strings.Split ref slash) as [|x [|y [|z rest]]];
      repeat case_bool_decide; rewrite ?Hcross; cbn;
      intros [= <-]; auto.
Qed.

Lemma buildSecretName_stays_in_default_witness :
  buildSecretName emptyCache "a" "secret1" = Ok ("a", "secret1").
Proof.
  apply (proj1 (proj2 (buildSecretName_stays_in_default emptyCache "a" "secret1"
                         eq_refl ltac:(discriminate)))).
  reflexivity.
Defined.

Section Resolver.
Context `{CertificateLib} `{FileLib}.

(** X4: with cross-namespace reading off, a reference into a namespace
    other than the non-empty default makes every resolver call fail with
    the cross-namespace error, before the controller or the lister is
    asked and whatever they hold. *)
Theorem resolver_denies_other_namespace (c : k8scache)
    (d ns name keyName : string) :
  crossNS c = false ->
  d <> "" -> ns <> "" -> ns <> d ->
  strings.ContainsByte ns slash = false ->
  strings.ContainsByte name slash = false ->
  let ref := ns +:+ "/" +:+ name in
  GetTLSSecretPath c d ref = Fail (Inherited (ErrCrossNamespace ref d))
  /\ GetCASecretPath c d ref = Fail (Inherited (ErrCrossNamespace ref d))
  /\ GetSecretContent c d ref keyName
     = Fail (Inherited (ErrCrossNamespace ref d))
  /\ GetDHSecretPath c d ref
     = inr (DHInherited (Inherited (ErrCrossNamespace ref d))).
Proof.
  intros Hcross Hd Hns Hne Hs1 Hs2 ref.
  pose proof (buildSecretName_denied c d ns name Hcross Hd Hns Hne Hs1 Hs2)
    as Hdenied.
  unfold GetTLSSecretPath, GetCASecretPath, GetSecretContent, GetDHSecretPath.
  subst ref. rewrite Hdenied. repeat split; reflexivity.
Qed.

(** X6: a path that is returned is never empty: [GetTLSSecretPath]
    returns the certificate's PEM file name, which is not "";
    [GetCASecretPath] returns a CA file with a name, and a CRL file
    that is either the zero value or has a name and the hash of the CA
    file; and [GetCASecretPath] has no nil dereference. *)
Theorem secret_paths_not_empty (c : k8scache) (d ref : string) :
  (forall file, GetTLSSecretPath c d ref = Return file ->
     crt_Filename file <> "")
  /\ (forall ca crl, GetCASecretPath c d ref = Return (ca, crl) ->
        file_Filename ca <> ""
        /\ (crl = noFile
            \/ (file_Filename crl <> ""
                /\ file_SHA1Hash crl = file_SHA1Hash ca)))
  /\ GetCASecretPath c d ref <> Panic.
Proof.
  unfold GetTLSSecretPath, GetCASecretPath.
  destruct (buildSecretName c d ref) as [[ns name]|e].
  2: { repeat split; intros; discriminate. }
  destruct (GetCertificate ns name) as [sslCert|e].
  2: { repeat split; intros; discriminate. }
  split; [|split].
  - intros file. case_bool_decide as Hpem; [discriminate|].
    destruct (ssl_Certificate sslCert); [|discriminate].
    intros [= <-]. exact Hpem.
  - intros ca crl. case_bool_decide as Hca; [discriminate|].
    intros [= <- <-]. split; [exact Hca|].
    case_bool_decide as Hcrl; cbn; [left; reflexivity | right].
    split; [exact Hcrl | reflexivity].
  - case_bool_decide; discriminate.
Qed.
End Resolver.

Lemma resolver_denies_other_namespace_witness :
  @GetCASecretPath (certificateTable [("b", "secret1", caCert)])
    (cacheWithSecrets false [otherNamespaceSecret]) "a" "b/secret1"
  = Fail (Inherited (ErrCrossNamespace "b/secret1" "a"))
  /\ GetSecretContent (cacheWithSecrets false [otherNamespaceSecret])
       "a" "b/secret1" "auth"
     = Fail (Inherited (ErrCrossNamespace "b/secret1" "a")).
Proof.
  pose proof (@resolver_denies_other_namespace
                (certificateTable [("b", "secret1", caCert)]) noFiles
                (cacheWithSecrets false [otherNamespaceSecret])
                "a" "b" "secret1" "auth" eq_refl
                ltac:(discriminate) ltac:(discriminate) ltac:(discriminate)
                eq_refl eq_refl) as (_ & Hca & Hcontent & _).
  split; [exact Hca | exact Hcontent].
Defined.

Lemma secret_paths_not_empty_witness :
  @GetCASecretPath (certificateTable [("b", "secret1", caCert)])
    (cacheWithSecrets true [otherNamespaceSecret]) "a" "b/secret1"
  = Return ({| file_Filename := CAFileName caCert;
               file_SHA1Hash := PemSHA caCert |},
            {| file_Filename := CRLFileName caCert;
               file_SHA1Hash := PemSHA caCert |})
  /\ CAFileName caCert <> "".
Proof.
  split; [reflexivity|].
  apply (proj1 (proj1 (proj2 (@secret_paths_not_empty
                                (certificateTable [("b", "secret1", caCert)])
                                (cacheWithSecrets true [otherNamespaceSecret])
                                "a" "b/secret1"))
                  {| file_Filename := CAFileName caCert;
                     file_SHA1Hash := PemSHA caCert |}
                  {| file_Filename := CRLFileName caCert;
                     file_SHA1Hash := PemSHA caCert |}
                  eq_refl)).
Defined.

(** X5: with cross-namespace reading off and a non-empty default
    namespace, the bytes [GetSecretContent] returns are an entry of a
    secret that the lister holds in the default namespace: content of
    another namespace's secret is never returned. *)
Theorem GetSecretContent_from_default_namespace (c : k8scache)
    (d ref keyName : string) (data : bytes) :
  crossNS c = false ->
  d <> "" ->
  GetSecretContent c d ref keyName = Return data ->
  exists secret,
    In secret (secretLister (listers c))
    /\ sec_Namespace secret = d
    /\ sec_Data secret !! keyName = Some data.
Proof.
  intros Hcross Hd. unfold GetSecretContent, lister_Get.
  destruct (buildSecretName c d ref) as [[ns name]|e] eqn:Hname;
    [|discriminate].
  destruct (store_get secretKey ns name (secretLister (listers c)))
    as [secret|] eqn:Hget; [|discriminate].
  destruct (sec_Data secret !! keyName) as [found|] eqn:Hentry;
    [|discriminate].
  intros [= <-]. exists secret.
  pose proof (store_get_key secretKey ns name _ secret Hget) as Hkey.
  apply find_some in Hget as [Hin _].
  destruct (buildSecretName_Ok_inv c d ref ns name Hname)
    as (ns0 & _ & [[Hd' _] | [(_ & _ & Hns) | (_ & _ & Hns & Hor)]]).
  - contradiction.
  - repeat split; try assumption. injection Hkey as Hk _. congruence.
  - destruct Hor as [Hc | Hsame]; [congruence|].
    repeat split; try assumption. injection Hkey as Hk _. congruence.
Qed.

Lemma GetSecretContent_from_default_namespace_witness :
  exists secret,
    In secret [otherNamespaceSecret; defaultNamespaceSecret]
    /\ sec_Namespace secret = "a"
    /\ sec_Data secret !! "auth" = Some [Byte.x62].
Proof.
  apply (GetSecretContent_from_default_namespace
           (cacheWithSecrets false [otherNamespaceSecret; defaultNamespaceSecret])
           "a" "secret1" "auth" [Byte.x62] eq_refl ltac:(discriminate) eq_refl).
Defined.

(** ** Create-or-update and what the API server keeps *)

Lemma store_get_app_l {A : Type} (key : A -> string * string)
    (ns n : string) (objs : list A) (o s : A) :
  store_get key ns n objs = Some s ->
  store_get key ns n (objs ++ [o]) = Some s.
Proof.
  unfold store_get. induction objs as [|x objs IH]; cbn; [discriminate|].
  destruct (bool_decide (key x = (ns, n))); [trivial | exact IH].
Qed.

Lemma CreateOrUpdateSecret_frame (secret : Secret) (c : k8scache) :
  listers (fst (CreateOrUpdateSecret secret c)) = listers c
  /\ acmeSecretKeyName (fst (CreateOrUpdateSecret secret c))
     = acmeSecretKeyName c.
Proof.
  unfold CreateOrUpdateSecret.
  destruct (lister_Get _ _ _ _);
    [destruct (api_Update _ _ _) | destruct (api_Create _ _ _)];
    split; reflexivity.
Qed.

(** The four cases of create-or-update, by whether the lister and the
    API server hold the object: the server's answer is dropped. *)
Lemma CreateOrUpdateSecret_cases (secret : Secret) (c : k8scache) :
  let ns := sec_Namespace secret in
  let n := sec_Name secret in
  let servers := cli_Secrets (client c) in
  CreateOrUpdateSecret secret c
  = (set_client
       {| cli_Secrets :=
            match store_get secretKey ns n (secretLister (listers c)),
                  store_get secretKey ns n servers with
            | Some _, Some _ => store_replace secretKey secret servers
            | None, None => servers ++ [secret]
            | _, _ => servers
            end;
          cli_ConfigMaps := cli_ConfigMaps (client c) |} c, None).
Proof.
  cbv zeta. unfold CreateOrUpdateSecret, lister_Get, api_Create, api_Update.
  change ((secretKey secret).1) with (sec_Namespace secret).
  change ((secretKey secret).2) with (sec_Name secret).
  destruct (store_get secretKey _ _ (secretLister (listers c)));
    destruct (store_get secretKey _ _ (cli_Secrets (client c)));
    reflexivity.
Qed.

Lemma CreateOrUpdateConfigMap_cases (cm : ConfigMap) (c : k8scache) :
  let ns := cm_Namespace cm in
  let n := cm_Name cm in
  let servers := cli_ConfigMaps (client c) in
  CreateOrUpdateConfigMap cm c
  = (set_client
       {| cli_Secrets := cli_Secrets (client c);
          cli_ConfigMaps :=
            match store_get configMapKey ns n (configMapLister (listers c)),
                  store_get configMapKey ns n servers with
            | Some _, Some _ => store_replace configMapKey cm servers
            | None, None => servers ++ [cm]
            | _, _ => servers
            end |} c, None).
Proof.
  cbv zeta.
  unfold CreateOrUpdateConfigMap, lister_Get, api_Create, api_Update.
  change ((configMapKey cm).1) with (cm_Namespace cm).
  change ((configMapKey cm).2) with (cm_Name cm).
  destruct (store_get configMapKey _ _ (configMapLister (listers c)));
    destruct (store_get configMapKey _ _ (cli_ConfigMaps (client c)));
    reflexivity.
Qed.

Lemma CreateOrUpdateSecret_stored (secret : Secret) (c : k8scache) :
  agree secretKey (sec_Namespace secret) (sec_Name secret)
    (secretLister (listers c)) (cli_Secrets (client c)) ->
  store_get secretKey (sec_Namespace secret) (sec_Name secret)
    (cli_Secrets (client (fst (CreateOrUpdateSecret secret c)))) = Some secret.
Proof.
  rewrite CreateOrUpdateSecret_cases; cbv zeta. unfold agree.
  destruct (store_get secretKey _ _ (secretLister (listers c)))
    as [l|] eqn:Hlister;
    destruct (store_get secretKey _ _ (cli_Secrets (client c)))
      as [r|] eqn:Hremote;
    intros [Hlr Hrl]; cbn.
  - apply (store_get_replace secretKey); [reflexivity | rewrite Hremote; eauto].
  - destruct (Hlr (ex_intro _ l eq_refl)); discriminate.
  - destruct (Hrl (ex_intro _ r eq_refl)); discriminate.
  - apply (store_get_append secretKey); [reflexivity | exact Hremote].
Qed.

Lemma not_agree_cases {A : Type} (x y : option A) :
  ~ (is_Some x <-> is_Some y) ->
  (exists a, x = Some a /\ y = None) \/ (exists b, x = None /\ y = Some b).
Proof.
  destruct x as [a|], y as [b|]; intros Hne.
  - exfalso. apply Hne. split; eauto.
  - left. eauto.
  - right. eauto.
  - exfalso. apply Hne. split; intros H; exact H.
Qed.

(** X7: create-or-update returns nil on every path: the error of the
    API server's create or update goes to the variable of the [if]
    header and is dropped.  When the lister and the API server agree on
    whether the object exists the server holds the object written; when
    they do not (the lister is behind), the server refuses the call, its
    objects stay as they were, and the caller is still told nil.  The
    same for secrets and for config maps. *)
Theorem CreateOrUpdate_returns_nil (c : k8scache) (secret : Secret)
    (cm : ConfigMap) :
  (let ns := sec_Namespace secret in
   let n := sec_Name secret in
   let after := CreateOrUpdateSecret secret c in
   snd after = None
   /\ (agree secretKey ns n (secretLister (listers c)) (cli_Secrets (client c)) ->
       store_get secretKey ns n (cli_Secrets (client (fst after)))
       = Some secret)
   /\ (~ agree secretKey ns n
          (secretLister (listers c)) (cli_Secrets (client c)) ->
       cli_Secrets (client (fst after)) = cli_Secrets (client c)))
  /\ (let ns := cm_Namespace cm in
      let n := cm_Name cm in
      let after := CreateOrUpdateConfigMap cm c in
      snd after = None
      /\ (agree configMapKey ns n
            (configMapLister (listers c)) (cli_ConfigMaps (client c)) ->
          store_get configMapKey ns n (cli_ConfigMaps (client (fst after)))
          = Some cm)
      /\ (~ agree configMapKey ns n
             (configMapLister (listers c)) (cli_ConfigMaps (client c)) ->
          cli_ConfigMaps (client (fst after)) = cli_ConfigMaps (client c))).
Proof.
  split; cbv zeta.
  - split; [rewrite CreateOrUpdateSecret_cases; reflexivity|].
    split; [apply CreateOrUpdateSecret_stored|].
    intros Hne. rewrite CreateOrUpdateSecret_cases; cbv zeta.
    destruct (not_agree_cases _ _ Hne) as [(a & -> & ->) | (b & -> & ->)];
      reflexivity.
  - split; [rewrite CreateOrUpdateConfigMap_cases; reflexivity|].
    split; [apply CreateOrUpdateConfigMap_stored|].
    intros Hne. rewrite CreateOrUpdateConfigMap_cases; cbv zeta.
    destruct (not_agree_cases _ _ Hne) as [(a & -> & ->) | (b & -> & ->)];
      reflexivity.
Qed.

Lemma CreateOrUpdate_returns_nil_witness :
  CreateOrUpdateSecret
    (accountSecret {[ TLSPrivateKeyKey := toyKeyPem ]}) (staleCache issuedSecret)
  = (staleCache issuedSecret, None)
  /\ store_get secretKey "ingress" "acme-private-key"
       (cli_Secrets (client (fst (CreateOrUpdateSecret issuedSecret emptyCache))))
     = Some issuedSecret.
Proof.
  split; [reflexivity|].
  apply (proj1 (proj2 (proj1 (CreateOrUpdate_returns_nil
                                emptyCache issuedSecret globalConfigMap)))).
  split; intros Hsome; exact Hsome.
Defined.

(** ** Writing and reading the issued certificate and the account key *)

Section AcmeSecrets.
Context `{CryptoLib}.

Lemma GetTLSSecretContent_listers (c c' : k8scache) (secretName : string) :
  listers c' = listers c ->
  GetTLSSecretContent c' secretName = GetTLSSecretContent c secretName.
Proof.
  intros Hl. unfold GetTLSSecretContent, GetSecret. rewrite Hl. reflexivity.
Qed.

(** X8: [SetTLSSecretContent] with a well-formed secret name returns
    nil, and right after it the lister still answers as before, so
    [GetTLSSecretContent] returns what it returned before the write.
    When the API server accepted the write (the lister and the server
    agreed on whether the secret existed), then once the informer has
    delivered the secret [GetTLSSecretContent] returns the certificate
    and key the two PEM blocks parse to, and nil when one of them does
    not decode or parse. *)
Theorem SetTLSSecretContent_read_back (c : k8scache) (secretName : string)
    (pemCrt pemKey : bytes) (ns n : string) :
  SplitMetaNamespaceKey secretName = Ok (ns, n) ->
  let after := SetTLSSecretContent c secretName pemCrt pemKey in
  snd after = None
  /\ GetTLSSecretContent (fst after) secretName
     = GetTLSSecretContent c secretName
  /\ (agree secretKey ns n
        (secretLister (listers c)) (cli_Secrets (client c)) ->
      GetTLSSecretContent (informerSync (fst after)) secretName
      = parsedTLS pemCrt pemKey).
Proof.
  intros Hsplit. cbv zeta.
  unfold SetTLSSecretContent. rewrite Hsplit.
  set (secret := {| sec_Namespace := ns; sec_Name := n;
                    sec_Type := SecretTypeTLS;
                    sec_Data := {[ TLSCertKey := pemCrt;
                                   TLSPrivateKeyKey := pemKey ]} |}).
  split; [rewrite CreateOrUpdateSecret_cases; reflexivity|]. split.
  - apply GetTLSSecretContent_listers. apply CreateOrUpdateSecret_frame.
  - intros Hagree.
    pose proof (CreateOrUpdateSecret_stored secret c Hagree) as Hstored.
    change (sec_Namespace secret) with ns in Hstored.
    change (sec_Name secret) with n in Hstored.
    unfold GetTLSSecretContent, GetSecret, lister_Get, parsedTLS.
    rewrite Hsplit. cbn [informerSync listers set_listers secretLister].
    rewrite Hstored. subst secret. cbn [sec_Data].
    rewrite lookup_insert_eq.
    rewrite lookup_insert_ne by discriminate.
    rewrite lookup_singleton_eq. reflexivity.
Qed.

(** X9: [GetKey] leaves the lister alone and never replaces a secret of
    the API server: every secret the server held before the call it
    holds unchanged after it, also when the lister had not seen the
    account secret yet. *)
Theorem GetKey_keeps_secrets (c : k8scache) (ns n : string) (s : Secret) :
  store_get secretKey ns n (cli_Secrets (client c)) = Some s ->
  store_get secretKey ns n (cli_Secrets (client (fst (GetKey c)))) = Some s
  /\ listers (fst (GetKey c)) = listers c.
Proof.
  intros Hs. unfold GetKey.
  destruct (readKey c) as [[key|]|e] eqn:Hread; [auto | | auto].
  destruct (SplitMetaNamespaceKey (acmeSecretKeyName c))
    as [[namespace name]|e] eqn:Hsplit; [|auto].
  destruct (rsa_GenerateKey 2048) as [key|]; [|auto].
  set (newSecret := {| sec_Namespace := namespace; sec_Name := name;
                       sec_Type := SecretTypeOpaque;
                       sec_Data := _ |}).
  assert (store_get secretKey namespace name (secretLister (listers c)) = None)
    as Hlister.
  { revert Hread. unfold readKey, GetSecret, lister_Get. rewrite Hsplit.
    destruct (store_get secretKey namespace name (secretLister (listers c)))
      as [secret|]; [|reflexivity].
    destruct (sec_Data secret !! TLSPrivateKeyKey) as [pemKey|];
      [|discriminate].
    destruct (pem_Decode pemKey) as [der|]; [|discriminate].
    destruct (x509_ParsePKCS1PrivateKey der); discriminate. }
  pose proof (CreateOrUpdateSecret_cases newSecret c) as Hcases.
  cbv zeta in Hcases.
  change (sec_Namespace newSecret) with namespace in Hcases.
  change (sec_Name newSecret) with name in Hcases.
  rewrite Hlister in Hcases. rewrite Hcases.
  destruct (store_get secretKey namespace name (cli_Secrets (client c)));
    cbn; split; try reflexivity; try exact Hs.
  apply store_get_app_l. exact Hs.
Qed.

(** X10: when the lister has no account secret, [GetKey] returns the
    key it generated, with no error, whether or not the key was stored.
    If the API server held no secret under the name, the new secret is
    stored, and once the informer has delivered it the next [GetKey]
    returns the same key without writing, provided the key survives
    encoding (the PEM block decodes to the marshalled key and that
    parses to the key).  If the server already held a secret under the
    name (the lister is behind), the create is refused, the server's
    secrets stay as they were, and the key returned is stored
    nowhere. *)
Theorem GetKey_generated_once (c : k8scache) (e : error) (ns n : string)
    (key : PrivateKey) :
  GetSecret c (acmeSecretKeyName c) = Err e ->
  SplitMetaNamespaceKey (acmeSecretKeyName c) = Ok (ns, n) ->
  rsa_GenerateKey 2048 = Some key ->
  snd (GetKey c) = Ok key
  /\ (store_get secretKey ns n (cli_Secrets (client c)) = None ->
      pem_Decode (pem_EncodeToMemory "RSA PRIVATE KEY"
                    (x509_MarshalPKCS1PrivateKey key))
      = Some (x509_MarshalPKCS1PrivateKey key) ->
      x509_ParsePKCS1PrivateKey (x509_MarshalPKCS1PrivateKey key) = Some key ->
      GetKey (informerSync (fst (GetKey c)))
      = (informerSync (fst (GetKey c)), Ok key))
  /\ (is_Some (store_get secretKey ns n (cli_Secrets (client c))) ->
      cli_Secrets (client (fst (GetKey c))) = cli_Secrets (client c)).
Proof.
  intros Habsent Hsplit Hgen.
  assert (readKey c = Ok None) as Hread
    by (unfold readKey; rewrite Habsent; reflexivity).
  assert (store_get secretKey ns n (secretLister (listers c)) = None)
    as Hlister by (apply (GetSecret_absent c _ ns n e Habsent Hsplit)).
  unfold GetKey at 1 3 4 5. rewrite Hread, Hsplit, Hgen.
  set (newSecret := {| sec_Namespace := ns; sec_Name := n;
                       sec_Type := SecretTypeOpaque;
                       sec_Data := _ |}).
  pose proof (CreateOrUpdateSecret_cases newSecret c) as Hcases.
  cbv zeta in Hcases.
  change (sec_Namespace newSecret) with ns in Hcases.
  change (sec_Name newSecret) with n in Hcases.
  rewrite Hlister in Hcases. rewrite Hcases. cbn [fst snd].
  split; [reflexivity|]. split.
  - intros Hr Hpem Hparse. rewrite Hr.
    assert (store_get secretKey ns n (cli_Secrets (client c) ++ [newSecret])
            = Some newSecret) as Hstored
      by (apply (store_get_append secretKey); [reflexivity | exact Hr]).
    unfold GetKey, readKey, GetSecret, lister_Get.
    cbn [informerSync set_client set_listers listers client secretLister
           cli_Secrets acmeSecretKeyName].
    rewrite Hsplit, Hstored. subst newSecret. cbn [sec_Data].
    rewrite lookup_singleton_eq, Hpem, Hparse. reflexivity.
  - intros [r Hr]. rewrite Hr. reflexivity.
Qed.
End AcmeSecrets.

Lemma SetTLSSecretContent_read_back_witness :
  @GetTLSSecretContent ToyCrypto.lib
    (informerSync
       (fst (SetTLSSecretContent emptyCache "ingress/example-tls"
               toyCrtPem toyKeyPem)))
    "ingress/example-tls"
  = Some (@Build_TLSSecret ToyCrypto.lib [Byte.x30; Byte.x83] [Byte.x30; Byte.x82]).
Proof.
  apply (proj2 (proj2 (@SetTLSSecretContent_read_back ToyCrypto.lib emptyCache
                         "ingress/example-tls" toyCrtPem toyKeyPem
                         "ingress" "example-tls" eq_refl))).
  split; intros Hsome; exact Hsome.
Defined.

Lemma GetKey_keeps_secrets_witness :
  store_get secretKey "ingress" "acme-private-key"
    (cli_Secrets
       (client (fst (@GetKey ToyCrypto.lib
                       (staleCache
                          (accountSecret {[ TLSPrivateKeyKey := toyKeyPem ]}))))))
  = Some (accountSecret {[ TLSPrivateKeyKey := toyKeyPem ]}).
Proof.
  apply (proj1 (@GetKey_keeps_secrets ToyCrypto.lib
                  (staleCache (accountSecret {[ TLSPrivateKeyKey := toyKeyPem ]}))
                  "ingress" "acme-private-key" _ eq_refl)).
Defined.

Lemma GetKey_generated_once_witness :
  snd (@GetKey ToyCrypto.lib
         (informerSync (fst (@GetKey ToyCrypto.lib emptyCache))))
  = Ok [Byte.x01; Byte.x00; Byte.x01]
  /\ @GetKey ToyCrypto.lib (staleCache issuedSecret)
     = (staleCache issuedSecret, Ok [Byte.x01; Byte.x00; Byte.x01]).
Proof.
  split.
  - destruct (@GetKey_generated_once ToyCrypto.lib emptyCache
                (ErrNotFound "ingress" "acme-private-key")
                "ingress" "acme-private-key" [Byte.x01; Byte.x00; Byte.x01]
                eq_refl eq_refl eq_refl) as (_ & Hsynced & _).
    rewrite (Hsynced eq_refl eq_refl eq_refl). reflexivity.
  - reflexivity.
Defined.

(** ** One entry per domain *)

Lemma GetToken_lookup (c : k8scache) (ns n domain uri : string) :
  SplitMetaNamespaceKey (acmeTokenConfigmapName c) = Ok (ns, n) ->
  GetToken c domain uri
  = match store_get configMapKey ns n (configMapLister (listers c)) with
    | None => ""
    | Some cm =>
        match default ∅ (cm_Data cm) !! domain with
        | None => ""
        | Some entry =>
            if negb (strings.HasPrefix entry (uri +:+ "=")) then ""
            else strings.TrimPrefix entry (uri +:+ "=")
        end
    end.
Proof.
  intros Hsplit. unfold GetToken, GetConfigMap, lister_Get. rewrite Hsplit.
  destruct (store_get configMapKey ns n (configMapLister (listers c)));
    reflexivity.
Qed.

Lemma tokenConfigMap_other (found : result ConfigMap)
    (ns n domain uri token domain' : string) :
  domain' <> domain ->
  default ∅ (cm_Data (tokenConfigMap found ns n domain uri token)) !! domain'
  = match found with
    | Ok cm => default ∅ (cm_Data cm) !! domain'
    | Err _ => None
    end.
Proof.
  intros Hne. unfold tokenConfigMap; cbn.
  destruct (bool_decide (token = "")); cbn.
  - rewrite lookup_delete_ne by congruence. destruct found; reflexivity.
  - rewrite lookup_insert_ne by congruence. destruct found; reflexivity.
Qed.

(** X11: [SetToken] for one domain does not touch what [GetToken]
    answers for another domain: not right after the call, and not after
    the informer has delivered a write that the API server accepted
    (the lister and the server agreed on whether the token config map
    existed). *)
Theorem SetToken_other_domains (c : k8scache)
    (domain uri token domain' uri' : string) :
  domain' <> domain ->
  GetToken (fst (SetToken c domain uri token)) domain' uri'
  = GetToken c domain' uri'
  /\ (forall ns n,
        SplitMetaNamespaceKey (acmeTokenConfigmapName c) = Ok (ns, n) ->
        agree configMapKey ns n
          (configMapLister (listers c)) (cli_ConfigMaps (client c)) ->
        GetToken (informerSync (fst (SetToken c domain uri token)))
          domain' uri'
        = GetToken c domain' uri').
Proof.
  intros Hne.
  destruct (SplitMetaNamespaceKey (acmeTokenConfigmapName c))
    as [[ns n]|e] eqn:Hsplit.
  2: { split.
       - unfold SetToken. rewrite Hsplit. reflexivity.
       - intros ns n. discriminate. }
  assert (forall c2 found,
             acmeTokenConfigmapName c2 = acmeTokenConfigmapName c ->
             store_get configMapKey ns n (configMapLister (listers c2))
             = Some (tokenConfigMap found ns n domain uri token) ->
             GetToken c2 domain' uri'
             = match match found with
                     | Ok cm => default ∅ (cm_Data cm) !! domain'
                     | Err _ => None
                     end with
               | None => ""
               | Some entry =>
                   if negb (strings.HasPrefix entry (uri' +:+ "=")) then ""
                   else strings.TrimPrefix entry (uri' +:+ "=")
               end) as Hread.
  { intros c2 found Hname Hget.
    rewrite (GetToken_lookup c2 ns n) by (rewrite Hname; exact Hsplit).
    rewrite Hget, (tokenConfigMap_other found) by exact Hne. reflexivity. }
  assert (acmeTokenConfigmapName
            (informerSync (fst (SetToken c domain uri token)))
          = acmeTokenConfigmapName c) as Hname
    by apply SetToken_name.
  rewrite (GetToken_lookup c ns n domain' uri' Hsplit).
  destruct (store_get configMapKey ns n (configMapLister (listers c)))
    as [cm|] eqn:Hget.
  - split.
    + apply (Hread _ (Ok cm)); [apply SetToken_name|].
      apply (SetToken_lister c ns n domain uri token cm Hsplit Hget).
    + intros ns' n' [= <- <-] Hagree. apply (Hread _ (Ok cm) Hname).
      pose proof (SetToken_remote c ns n domain uri token Hsplit Hagree)
        as Hremote.
      unfold lister_Get in Hremote. rewrite Hget in Hremote. exact Hremote.
  - split.
    + rewrite (GetToken_lookup _ ns n)
        by (rewrite SetToken_name; exact Hsplit).
      rewrite (SetToken_lister_absent c ns n domain uri token Hsplit Hget).
      rewrite Hget. reflexivity.
    + intros ns' n' [= <- <-] Hagree.
      apply (Hread _ (Err (ErrNotFound ns n)) Hname).
      pose proof (SetToken_remote c ns n domain uri token Hsplit Hagree)
        as Hremote.
      unfold lister_Get in Hremote. rewrite Hget in Hremote. exact Hremote.
Qed.

Lemma append_cons (a : ascii) (s t : string) :
  String a s +:+ t = String a (s +:+ t).
Proof. reflexivity. Qed.

Lemma append_nil (t : string) : "" +:+ t = t.
Proof. reflexivity. Qed.

Lemma HasPrefix_same_uri (uri uri' rest : string) :
  strings.ContainsByte uri equals = false ->
  strings.ContainsByte uri' equals = false ->
  strings.HasPrefix (uri +:+ String equals rest) (uri' +:+ "=") = true ->
  uri' = uri.
Proof.
  revert uri. induction uri' as [|b uri' IH]; intros [|a uri];
    rewrite ?append_cons, ?append_nil; cbn [strings.ContainsByte].
  - reflexivity.
  - destruct (Ascii.eqb_spec a equals) as [->|Ha]; [discriminate|].
    intros _ _. change "=" with (String equals ""). cbn [strings.HasPrefix].
    destruct (Ascii.eqb_spec equals a) as [<-|_];
      [contradiction | discriminate].
  - destruct (Ascii.eqb_spec b equals) as [->|Hb]; [discriminate|].
    intros _ _. cbn [strings.HasPrefix].
    destruct (Ascii.eqb_spec b equals) as [->|_];
      [contradiction | discriminate].
  - destruct (Ascii.eqb a equals); [discriminate|].
    destruct (Ascii.eqb b equals); [discriminate|].
    intros Hu Hu'. cbn [strings.HasPrefix].
    destruct (Ascii.eqb_spec b a) as [->|_]; [|discriminate].
    intros Hp. f_equal. apply IH; assumption.
Qed.

(** X12: one challenge per domain.  After [SetToken] with a non-empty
    token on a config map the lister holds, [GetToken] for the domain
    answers the token for the uri that was set and "" for every other
    uri, when neither uri has a "=" in it; a uri set earlier for the
    domain no longer answers.  The check is on the prefix uri + "=", not
    on the uri: for a uri set as u0 + "=" + rest, the uri u0 answers
    rest + "=" + token. *)
Theorem SetToken_one_uri (c : k8scache) (cm : ConfigMap)
    (domain uri token uri' : string) :
  GetConfigMap c (acmeTokenConfigmapName c) = Ok cm ->
  token <> "" ->
  (strings.ContainsByte uri equals = false ->
   strings.ContainsByte uri' equals = false ->
   GetToken (fst (SetToken c domain uri token)) domain uri'
   = if bool_decide (uri' = uri) then token else "")
  /\ (forall rest,
        uri = uri' +:+ "=" +:+ rest ->
        GetToken (fst (SetToken c domain uri token)) domain uri'
        = rest +:+ "=" +:+ token).
Proof.
  intros Hcm Htoken.
  revert Hcm. unfold GetConfigMap, lister_Get.
  destruct (SplitMetaNamespaceKey (acmeTokenConfigmapName c))
    as [[ns n]|e] eqn:Hsplit; [|discriminate].
  destruct (store_get configMapKey ns n (configMapLister (listers c)))
    as [cm0|] eqn:Hget; [|discriminate].
  intros _.
  assert (GetToken (fst (SetToken c domain uri token)) domain uri'
          = if negb (strings.HasPrefix (uri +:+ "=" +:+ token) (uri' +:+ "="))
            then ""
            else strings.TrimPrefix (uri +:+ "=" +:+ token) (uri' +:+ "="))
    as Hread.
  { rewrite (GetToken_lookup _ ns n)
      by (rewrite SetToken_name; exact Hsplit).
    rewrite (SetToken_lister c ns n domain uri token cm0 Hsplit Hget).
    unfold tokenConfigMap; cbn.
    rewrite (bool_decide_eq_false_2 _ Htoken); cbn.
    rewrite lookup_insert_eq. reflexivity. }
  split.
  - intros Hu Hu'. rewrite Hread.
    case_bool_decide as Heq.
    + subst uri'. apply entry_token.
    + destruct (strings.HasPrefix (uri +:+ "=" +:+ token) (uri' +:+ "="))
        eqn:Hp; [|reflexivity].
      exfalso. apply Heq.
      apply (HasPrefix_same_uri uri uri' token Hu Hu' Hp).
  - intros rest ->. rewrite Hread.
    rewrite !string_app_assoc.
    change ("=" +:+ rest +:+ "=" +:+ token)
      with ("=" +:+ (rest +:+ "=" +:+ token)).
    rewrite <- (string_app_assoc uri' "=" (rest +:+ "=" +:+ token)).
    rewrite HasPrefix_app, TrimPrefix_app. reflexivity.
Qed.

Lemma SetToken_other_domains_witness :
  GetToken (fst (SetToken tokenCache "example.com" "/acme/x" "tok1"))
    "other.org" "/acme/y" = "tok2"
  /\ GetToken
       (informerSync (fst (SetToken tokenCache "example.com" "/acme/x" "tok1")))
       "other.org" "/acme/y" = "tok2".
Proof.
  destruct (SetToken_other_domains tokenCache "example.com" "/acme/x"
              "tok1" "other.org" "/acme/y" ltac:(discriminate))
    as [Hnow Hsynced].
  split; [rewrite Hnow; reflexivity|].
  rewrite (Hsynced "ingress" "acme-validation-tokens" eq_refl); [reflexivity|].
  split; intros _; eexists; reflexivity.
Defined.

Lemma SetToken_one_uri_witness :
  GetToken (fst (SetToken tokenCache "other.org" "/acme/z" "tok3"))
    "other.org" "/acme/y" = ""
  /\ GetToken (fst (SetToken tokenCache "other.org" "/acme/z" "tok3"))
       "other.org" "/acme/z" = "tok3".
Proof.
  split.
  - exact (proj1 (SetToken_one_uri tokenCache tokenConfig "other.org" "/acme/z"
                    "tok3" "/acme/y" eq_refl ltac:(discriminate))
             eq_refl eq_refl).
  - exact (proj1 (SetToken_one_uri tokenCache tokenConfig "other.org" "/acme/z"
                    "tok3" "/acme/z" eq_refl ltac:(discriminate))
             eq_refl eq_refl).
Defined.

(** ** What Notify writes and what it leaves *)

Lemma untouched_Notify (now : Z) (old cur : option object) (c : k8scache) :
  untouched (Notify now old cur c) = untouched c.
Proof.
  unfold Notify; cbv zeta.
  assert (forall x, untouched (armTimer now x) = untouched x) as ->
    by (intros x; unfold armTimer; destruct (clear x); reflexivity).
  assert (forall x, untouched (noteCur old cur x) = untouched x) as ->.
  { intros x. unfold noteCur. destruct cur as [[ | | | |cm| | ]|], old;
      try reflexivity.
    all: destruct (bool_decide _); [|destruct (bool_decide _)]; reflexivity. }
  assert (forall x, untouched (noteOld old cur x) = untouched x) as ->
    by (intros x; destruct old as [[]|], cur; reflexivity).
  destruct old, cur; reflexivity.
Qed.

(** X13: [Notify] never writes the cache's client, listers,
    configuration names or current config data: after any sequence of
    calls they are what they were, so config data that arrived stays
    pending until a sync; and a resync that was asked for stays asked
    for. *)
Theorem NotifyAll_leaves_current (events : list ChangeEvent) (c : k8scache) :
  untouched (NotifyAll events c) = untouched c
  /\ GlobalConfig (NotifyAll events c)
     = (globalConfigMapData c, newGlobalConfigMapData (NotifyAll events c))
  /\ (needResync c = true -> needResync (NotifyAll events c) = true).
Proof.
  assert (untouched (NotifyAll events c) = untouched c) as Hsame.
  { revert c. induction events as [|e events IH]; intros c; [reflexivity|].
    change (NotifyAll (e :: events) c)
      with (NotifyAll events (NotifyEvent c e)).
    rewrite IH. apply untouched_Notify. }
  split; [exact Hsame|]. split.
  - unfold GlobalConfig. f_equal.
    unfold untouched in Hsame. congruence.
  - intros Hre.
    pose proof (f_equal d_needResync (dirty_NotifyAll events c)) as Hd.
    cbn in Hd. unfold NeedResync in Hd. rewrite Hd, Hre. reflexivity.
Qed.

Lemma pending_Notify (now : Z) (old cur : option object) (c : k8scache) :
  pending (Notify now old cur c)
  = match cur with
    | Some (ObjConfigMap cm) =>
        if IsValidConfigMap c cm
        then if bool_decide (cm_Namespace cm +:+ "/" +:+ cm_Name cm
                             = globalConfigMapKey c)
             then (cm_Data cm, newTCPConfigMapData c)
             else (newGlobalConfigMapData c, cm_Data cm)
        else pending c
    | _ => pending c
    end.
Proof.
  unfold Notify; cbv zeta.
  assert (forall x, pending (armTimer now x) = pending x) as ->
    by (intros x; unfold armTimer; destruct (clear x); reflexivity).
  destruct cur as [[ | | | |cm| | ]|].
  all: try (destruct old as [[]|]; reflexivity).
  assert (noteOld old (Some (ObjConfigMap cm))
            (noteResync old (Some (ObjConfigMap cm)) c) = c) as ->
    by (destruct old as [[]|]; reflexivity).
  unfold IsValidConfigMap, noteCur; cbv zeta.
  destruct (bool_decide (_ = globalConfigMapKey c)); [reflexivity|].
  destruct (bool_decide (_ = tcpConfigMapKey c)); reflexivity.
Qed.

Lemma IsValidConfigMap_Notify (now : Z) (old cur : option object)
    (c : k8scache) (cm : ConfigMap) :
  IsValidConfigMap (Notify now old cur c) cm = IsValidConfigMap c cm.
Proof.
  pose proof (untouched_Notify now old cur c) as Hsame.
  unfold IsValidConfigMap.
  rewrite (f_equal (fun t => snd (fst (fst (fst (fst (fst t)))))) Hsame
           : globalConfigMapKey (Notify now old cur c) = globalConfigMapKey c).
  rewrite (f_equal (fun t => snd (fst (fst (fst (fst t))))) Hsame
           : tcpConfigMapKey (Notify now old cur c) = tcpConfigMapKey c).
  reflexivity.
Qed.

(** X14: [Notify] changes the pending config data only for an event
    whose new value is a config map that [IsValidConfigMap] accepts:
    then it stores the map's data as the pending data of one of the two
    keys, the global one when the map's key equals both.  An event of
    any other kind, or with a config map that is not accepted, leaves
    the pending data as they were, and so does any sequence of such
    events.  A config map never enters a dirty list. *)
Theorem Notify_config_valid (now : Z) (old cur : option object)
    (c : k8scache) :
  pending (Notify now old cur c)
  = match cur with
    | Some (ObjConfigMap cm) =>
        if IsValidConfigMap c cm
        then if bool_decide (cm_Namespace cm +:+ "/" +:+ cm_Name cm
                             = globalConfigMapKey c)
             then (cm_Data cm, newTCPConfigMapData c)
             else (newGlobalConfigMapData c, cm_Data cm)
        else pending c
    | _ => pending c
    end
  /\ (forall cm, cur = Some (ObjConfigMap cm) ->
        dirty (Notify now old cur c) = dirty c)
  /\ (forall events,
        Forall (fun e => forall cm,
                  ev_cur e = Some (ObjConfigMap cm) ->
                  IsValidConfigMap c cm = false) events ->
        pending (NotifyAll events c) = pending c).
Proof.
  split; [apply pending_Notify|]. split.
  - intros cm ->. unfold Notify; cbv zeta.
    rewrite dirty_armTimer, dirty_noteCur_ConfigMap.
    destruct old as [[]|]; reflexivity.
  - intros events. clear now old cur. revert c.
    induction events as [|e events IH]; intros c Hall; [reflexivity|].
    change (NotifyAll (e :: events) c)
      with (NotifyAll events (NotifyEvent c e)).
    inversion Hall as [|e' events' He Hrest]; subst.
    rewrite IH.
    + unfold NotifyEvent. rewrite pending_Notify.
      destruct (ev_cur e) as [[ | | | |cm| | ]|]; try reflexivity.
      rewrite (He cm eq_refl). reflexivity.
    + eapply Forall_impl; [exact Hrest|].
      intros e0 He0 cm Hcm. unfold NotifyEvent.
      rewrite IsValidConfigMap_Notify. apply (He0 cm Hcm).
Qed.

Lemma Notify_config_valid_witness :
  pending (NotifyAll burst emptyCache) = (None, None).
Proof.
  apply (proj2 (proj2 (Notify_config_valid 0 None None emptyCache)) burst).
  repeat constructor; intros cm Hcm; discriminate.
Defined.

(** ** One notification per window *)

Lemma SyncNewObjects_timers (c : k8scache) :
  timers (SyncNewObjects c) = timers c.
Proof. unfold_SyncNewObjects c; reflexivity. Qed.

(** X15: over any number of render cycles (the events of a window, then
    a sync) that start with the timer enabled, one timer is armed for
    every window that has an event, 500 ms after the window's first
    event, and none for a window without events; after each cycle the
    timer is enabled again. *)
Theorem cycles_arm_one_timer_each (windows : list (list ChangeEvent))
    (c : k8scache) :
  clear c = true ->
  timers (cycles windows c) = timers c ++ omap windowDeadline windows
  /\ clear (cycles windows c) = true.
Proof.
  revert c. induction windows as [|w windows IH]; intros c Hclear.
  - cbn. rewrite app_nil_r. auto.
  - change (cycles (w :: windows) c) with (cycles windows (cycle c w)).
    assert (clear (cycle c w) = true) as Hnext
      by apply SyncNewObjects_clears.
    destruct (IH _ Hnext) as [-> ->]. split; [|reflexivity].
    unfold cycle at 1. rewrite SyncNewObjects_timers.
    destruct w as [|e w].
    + cbn. reflexivity.
    + rewrite (NotifyAll_first_arms e w c Hclear). cbn.
      rewrite <- (assoc_L (++)). reflexivity.
Qed.

Lemma cycles_arm_one_timer_each_witness :
  timers (cycles [burst; []; [at_ms 2000 None None]] emptyCache) = [500; 2500].
Proof.
  exact (proj1 (cycles_arm_one_timer_each
                  [burst; []; [at_ms 2000 None None]] emptyCache eq_refl)).
Defined.

(** ** A new cache *)

(** X16: in a new cache the ACME secret and token config map names
    parse to a namespace and a name: a configured name without a slash
    is placed in POD_NAMESPACE, or in "default" when that is empty, and
    a configured name with a slash is kept as it is.  The cache starts
    with the timer enabled, no resync asked for and nothing dirty. *)
Theorem createCache_acme_names (podNamespace : string) (cfg : Configuration)
    (cli : Client) (lst : Listers) (ctl : GenericController) :
  let c := createCache podNamespace cfg cli lst ctl in
  let namespace :=
    if bool_decide (podNamespace = "") then "default" else podNamespace in
  (strings.ContainsByte podNamespace slash = false ->
   strings.ContainsByte (AcmeSecretKeyName cfg) slash = false ->
   SplitMetaNamespaceKey (acmeSecretKeyName c)
   = Ok (namespace, AcmeSecretKeyName cfg))
  /\ (strings.ContainsByte podNamespace slash = false ->
      strings.ContainsByte (AcmeTokenConfigmapName cfg) slash = false ->
      SplitMetaNamespaceKey (acmeTokenConfigmapName c)
      = Ok (namespace, AcmeTokenConfigmapName cfg))
  /\ (strings.ContainsByte (AcmeSecretKeyName cfg) slash = true ->
      acmeSecretKeyName c = AcmeSecretKeyName cfg)
  /\ (strings.ContainsByte (AcmeTokenConfigmapName cfg) slash = true ->
      acmeTokenConfigmapName c = AcmeTokenConfigmapName cfg)
  /\ clear c = true
  /\ recorded (dirty c) = []
  /\ NeedResync c = false.
Proof.
  cbv zeta.
  assert (strings.ContainsByte podNamespace slash = false ->
          strings.ContainsByte
            (if bool_decide (podNamespace = "") then "default" else podNamespace)
            slash = false) as Hns
    by (intros Hp; case_bool_decide; [reflexivity | exact Hp]).
  unfold createCache; cbn [acmeSecretKeyName acmeTokenConfigmapName clear].
  split; [|split; [|split; [|split]]].
  - intros Hp Hname. rewrite Hname. cbn [negb].
    apply SplitMetaNamespaceKey_namespaced; auto.
  - intros Hp Hname. rewrite Hname. cbn [negb].
    apply SplitMetaNamespaceKey_namespaced; auto.
  - intros ->. reflexivity.
  - intros ->. reflexivity.
  - repeat split; reflexivity.
Qed.

Lemma createCache_acme_names_witness :
  SplitMetaNamespaceKey (acmeSecretKeyName emptyCache)
  = Ok ("ingress", "acme-private-key")
  /\ SplitMetaNamespaceKey
       (acmeTokenConfigmapName
          (createCache "" noConfiguration (client emptyCache)
             (listers emptyCache) (controller emptyCache)))
     = Ok ("default", "acme-validation-tokens").
Proof.
  split.
  - exact (proj1 (createCache_acme_names "ingress" noConfiguration
                    (client emptyCache) (listers emptyCache)
                    (controller emptyCache)) eq_refl eq_refl).
  - exact (proj1 (proj2 (createCache_acme_names "" noConfiguration
                           (client emptyCache) (listers emptyCache)
                           (controller emptyCache))) eq_refl eq_refl).
Defined.

(** ** DH parameters *)

Section DHParam.
Context `{FileLib}.

(** X17: with cross-namespace reading off and a non-empty default
    namespace, the file [GetDHSecretPath] returns was written from the
    "dhparam.pem" entry of a secret the lister holds in the default
    namespace, under the PEM name default-namespace + "_" + secret
    name, and carries the hash of that file. *)
Theorem GetDHSecretPath_from_default_namespace (c : k8scache)
    (d ref : string) (file : File) :
  crossNS c = false ->
  d <> "" ->
  GetDHSecretPath c d ref = inl file ->
  exists secret dh,
    In secret (secretLister (listers c))
    /\ sec_Namespace secret = d
    /\ sec_Data secret !! dhparamFilename = Some dh
    /\ AddOrUpdateDHParam (d +:+ "_" +:+ sec_Name secret) dh
       = Some (file_Filename file)
    /\ file_SHA1Hash file = SHA1 (file_Filename file).
Proof.
  intros Hcross Hd. unfold GetDHSecretPath, lister_Get.
  destruct (buildSecretName c d ref) as [[ns name]|e] eqn:Hname;
    [|discriminate].
  destruct (store_get secretKey ns name (secretLister (listers c)))
    as [secret|] eqn:Hget; [|discriminate].
  destruct (sec_Data secret !! dhparamFilename) as [dh|] eqn:Hentry;
    [|discriminate].
  destruct (AddOrUpdateDHParam (ns +:+ "_" +:+ name) dh) as [fileName|] eqn:Hadd;
    [|discriminate].
  intros [= <-]. exists secret, dh.
  pose proof (store_get_key secretKey ns name _ secret Hget) as Hkey.
  injection Hkey as Hkns Hkn.
  apply find_some in Hget as [Hin _].
  assert (ns = d) as ->.
  { destruct (buildSecretName_Ok_inv c d ref ns name Hname)
      as (ns0 & _ & [[Hd' _] | [(_ & _ & Hns) | (_ & _ & Hns & Hor)]]).
    - contradiction.
    - exact Hns.
    - destruct Hor as [Hc | Hsame]; congruence. }
  rewrite Hkn. repeat split; assumption || reflexivity.
Qed.
End DHParam.

Lemma GetDHSecretPath_from_default_namespace_witness :
  exists secret dh,
    In secret [otherNamespaceSecret; dhSecret]
    /\ sec_Namespace secret = "a"
    /\ sec_Data secret !! dhparamFilename = Some dh
    /\ @AddOrUpdateDHParam dhFiles ("a" +:+ "_" +:+ sec_Name secret) dh
       = Some "/ssl/a_dh.pem"
    /\ "da39a3ee5e6b4b0d3255bfef95601890afd80709" = @SHA1 dhFiles "/ssl/a_dh.pem".
Proof.
  apply (@GetDHSecretPath_from_default_namespace dhFiles
           (cacheWithSecrets false [otherNamespaceSecret; dhSecret])
           "a" "dh"
           {| file_Filename := "/ssl/a_dh.pem";
              file_SHA1Hash := "da39a3ee5e6b4b0d3255bfef95601890afd80709" |}
           eq_refl ltac:(discriminate) eq_refl).
Defined.

(** ** Names that do not parse *)

Lemma Split_length (s : string) (sep : ascii) :
  length (strings.Split s sep) = S (countByte s sep).
Proof.
  induction s as [|a s IH]; cbn; [reflexivity|].
  destruct (Ascii.eqb a sep); cbn; [rewrite IH; reflexivity|].
  destruct (strings.Split s sep); cbn in *; [discriminate | exact IH].
Qed.

Lemma SplitMetaNamespaceKey_malformed (key : string) :
  (2 <= countByte key slash)%nat ->
  SplitMetaNamespaceKey key = Err (ErrKeyFormat key).
Proof.
  intros Hcount. unfold SplitMetaNamespaceKey.
  pose proof (Split_length key slash) as Hlen.
  destruct (strings.Split key slash) as [|x [|y [|z rest]]]; cbn in Hlen;
    (reflexivity || lia).
Qed.

Section Malformed.
Context `{CryptoLib}.

(** X18: a name with two or more slashes is refused everywhere with the
    key-format error and nothing is read or written: [GetSecret] and
    [GetConfigMap] fail, [GetTLSSecretContent] answers nil,
    [SetTLSSecretContent] fails and leaves the cache as it is; with such
    a token config map name [SetToken] fails and [GetToken] answers "",
    and with such an account secret name [GetKey] fails without
    generating or writing a key. *)
Theorem malformed_name_refused (c : k8scache) (name : string)
    (pemCrt pemKey : bytes) (domain uri token : string) :
  (2 <= countByte name slash)%nat ->
  GetSecret c name = Err (ErrKeyFormat name)
  /\ GetConfigMap c name = Err (ErrKeyFormat name)
  /\ GetTLSSecretContent c name = None
  /\ SetTLSSecretContent c name pemCrt pemKey = (c, Some (ErrKeyFormat name))
  /\ (acmeTokenConfigmapName c = name ->
      SetToken c domain uri token = (c, Some (ErrKeyFormat name))
      /\ GetToken c domain uri = "")
  /\ (acmeSecretKeyName c = name ->
      GetKey c = (c, Err (ErrKeyFormat name))).
Proof.
  intros Hcount.
  pose proof (SplitMetaNamespaceKey_malformed name Hcount) as Hsplit.
  assert (GetSecret c name = Err (ErrKeyFormat name)) as Hsecret
    by (unfold GetSecret; rewrite Hsplit; reflexivity).
  assert (GetConfigMap c name = Err (ErrKeyFormat name)) as Hcm
    by (unfold GetConfigMap; rewrite Hsplit; reflexivity).
  split; [exact Hsecret|]. split; [exact Hcm|].
  split; [unfold GetTLSSecretContent; rewrite Hsecret; reflexivity|].
  split; [unfold SetTLSSecretContent; rewrite Hsplit; reflexivity|].
  split.
  - intros Hname. unfold SetToken, GetToken.
    rewrite Hname, Hsplit, Hcm. split; reflexivity.
  - intros Hname. unfold GetKey, readKey.
    rewrite Hname, Hsecret, Hsplit. reflexivity.
Qed.
End Malformed.

Lemma malformed_name_refused_witness :
  SetTLSSecretContent emptyCache "a/b/c" toyCrtPem toyKeyPem
  = (emptyCache, Some (ErrKeyFormat "a/b/c"))
  /\ @GetTLSSecretContent ToyCrypto.lib emptyCache "a/b/c" = None.
Proof.
  pose proof (@malformed_name_refused ToyCrypto.lib emptyCache "a/b/c"
                toyCrtPem toyKeyPem "example.com" "/acme/x" "tok1"
                ltac:(cbn; lia)) as (_ & _ & Hget & Hset & _).
  split; [exact Hset | exact Hget].
Defined.
